(** * pytube.cipher: the signature decipher, embedded and checked

    The module under study ([pytube/cipher.py]) pulls a "transform plan" out of
    a JavaScript asset with regular expressions, maps every JavaScript
    transform function to one of three Python list functions ([reverse],
    [splice], [swap]) and folds the plan over the ciphered signature.

    Layout of this development:
    - [Py]      : the Python primitives the module relies on (slices, indexing,
                  [%], [str.split], [str.replace], [int]) with their exceptions;
    - [Re]      : a backtracking matcher for the fragment of [re] the module's
                  patterns live in, with its declarative semantics;
    - [Helpers] : [regex_search] of [pytube.helpers];
    - [Cipher]  : the functions of [cipher.py], one definition per function;
    - [Spec]    : the notions in which the properties are stated;
    - the lemmas on the primitives and on the matcher (it finds exactly what
      a pattern describes), and the properties of the specification.

    Text is modelled as [string]: a sequence of 8-bit characters, read as the
    code points U+0000 to U+00FF of a Python 3 [str]; [\w], [\d] and [\s] are
    the classes that Python 3 gives to [str] patterns, on that range.  The
    [@memoize] decorator caches results of pure functions and is transparent
    to the values computed, so it is left out. *)

From stdpp Require Import base tactics option list gmap strings.
From Stdlib Require Import ZArith Lia Ascii.

Open Scope Z_scope.

(** ** Exceptions and the result monad *)

(** Modelled from the spec: [pytube.exceptions] is not part of the sources at
    hand.  [cipher.py] raises a single class from it, [RegexMatchError], at
    five places; the specification (section 7) names these failures by the
    place they come from, which is what the first four constructors follow.
    The last three are the Python built-in exceptions that the primitives
    used by [cipher.py] can raise. *)
Inductive error : Type :=
| PatternNotFound (stage : string)
| UnknownOperationShape (text : string)
| UnknownOperationName (name : string)
| MalformedCall (text : string)
| ZeroDivisionError
| IndexError
| ValueError.

Inductive result (A : Type) : Type :=
| Ok (a : A)
| Err (e : error).
Arguments Ok {A} a.
Arguments Err {A} e.

#[global] Instance result_ret : MRet result := fun A a => Ok a.
#[global] Instance result_bind : MBind result :=
  fun A B f m => match m with Ok a => f a | Err e => Err e end.

(** ** Python primitives *)
Module Py.

Section Lists.
Context {A : Type}.
Implicit Types (arr : list A) (i j b : Z).

(** A slice bound [i] of a sequence of length [n]: negative bounds count from
    the end, and everything is clamped to [0 .. n]. *)
Definition slice_bound arr i : nat :=
  let n := Z.of_nat (length arr) in
  Z.to_nat (if i <? 0 then Z.max 0 (i + n) else Z.min i n).

(** [arr[:j]] *)
Definition slice_to arr j : list A := take (slice_bound arr j) arr.

(** [arr[i:]] *)
Definition slice_from arr i : list A := drop (slice_bound arr i) arr.

(** [arr[i:j]] *)
Definition slice arr i j : list A :=
  take (slice_bound arr j - slice_bound arr i)%nat (drop (slice_bound arr i) arr).

(** [arr[::-1]]: the elements at indices [len-1], [len-2], ..., [0]. *)
Definition slice_backwards arr : list A :=
  omap (fun k => arr !! (length arr - 1 - k)%nat) (seq 0 (length arr)).

(** [arr[i]]: negative indices count from the end, anything out of range
    raises [IndexError]. *)
Definition getitem arr i : result A :=
  let n := Z.of_nat (length arr) in
  let i' := if i <? 0 then i + n else i in
  if (i' <? 0) || (n <=? i') then Err IndexError
  else match arr !! Z.to_nat i' with
       | Some x => Ok x
       | None => Err IndexError
       end.

End Lists.

(** [a % n] on integers: the result takes the sign of [n], and [n = 0] raises
    [ZeroDivisionError]. *)
Definition mod_ (a n : Z) : result Z :=
  if n =? 0 then Err ZeroDivisionError else Ok (a mod n).

(** *** Strings *)

(** [s.split(sep)] and [s.split(sep, maxsplit)] for a non-empty separator (the
    call sites pass [';'], ['.'], [', '] and [':']).  The text is scanned left
    to right; [skip] counts the characters of a separator just found that are
    still to be passed over, [cur] holds the current piece backwards, and
    [budget] is what is left of [maxsplit] ([None]: no limit).  The result is
    never the empty list. *)
Definition may_split (budget : option nat) : bool :=
  match budget with Some O => false | _ => true end.

Fixpoint split_go (sep : string) (budget : option nat) (skip : nat)
    (cur s : string) : list string :=
  match s with
  | EmptyString => [String.rev cur]
  | String c s' =>
    match skip with
    | S k => split_go sep budget k cur s'
    | O =>
      if may_split budget && String.prefix sep s
      then String.rev cur
             :: split_go sep (Nat.pred <$> budget) (String.length sep - 1) "" s'
      else split_go sep budget 0 (String c cur) s'
    end
  end.

Definition split (sep : string) (maxsplit : option nat) (s : string) : list string :=
  split_go sep maxsplit 0 "" s.

(** [s.replace(old, new)] for one-character [old] and [new]. *)
Fixpoint replace (old new : ascii) (s : string) : string :=
  match s with
  | EmptyString => EmptyString
  | String c s' => String (if Ascii.eqb c old then new else c) (replace old new s')
  end.

(** [int(s)] on a decimal literal without sign, blanks or underscores, which is
    what the [\d+] capture handed to it holds; any other text raises
    [ValueError] here.  So does a literal of more than [int_max_str_digits]
    characters: CPython (3.11, and the releases that took the limit over)
    refuses to convert it, with the default limit of 4300. *)
Definition int_max_str_digits : Z := 4300.

Definition digit_value (c : ascii) : option Z :=
  let n := Z.of_N (N_of_ascii c) in
  if (48 <=? n) && (n <=? 57) then Some (n - 48) else None.

Fixpoint int_go (acc : Z) (s : string) : result Z :=
  match s with
  | EmptyString => Ok acc
  | String c s' =>
    match digit_value c with
    | Some d => int_go (10 * acc + d) s'
    | None => Err ValueError
    end
  end.

Definition int (s : string) : result Z :=
  match s with
  | EmptyString => Err ValueError
  | _ =>
    if Z.of_nat (String.length s) <=? int_max_str_digits
    then int_go 0 s
    else Err ValueError
  end.

(** [[c for c in s]] and [''.join(chars)] *)
Definition chars (s : string) : list ascii := String.list_ascii_of_string s.
Definition join (l : list ascii) : string := String.string_of_list_ascii l.

(** A [for] loop whose body may raise: the state is threaded through the
    elements in order and the first exception ends the loop. *)
Fixpoint for_each {S X : Type} (body : S -> X -> result S) (s : S) (xs : list X)
    : result S :=
  match xs with
  | [] => Ok s
  | x :: xs' => s' ← body s x; for_each body s' xs'
  end.

End Py.

(** ** The fragment of Python's [re] used by [cipher.py]

    Every pattern of the module is a plain sequence of items: a character
    class taken once, or under [?], [*], [+] or [*?], with capturing
    parentheses around some of the items, and no alternation.  A pattern is
    therefore a list of tokens, and the matcher is the usual backtracking one:
    a greedy item first takes as many characters as it can and gives them back
    one at a time, a lazy one takes as few as it can, and [search] tries the
    start positions from left to right. *)
Module Re.

Definition cclass : Type := ascii -> bool.

Inductive tok : Type :=
| One (c : cclass)        (* c    *)
| Opt (c : cclass)        (* c?   *)
| Star (c : cclass)       (* c*   *)
| Plus (c : cclass)       (* c+   *)
| LazyStar (c : cclass)   (* c*?  *)
| GOpen                   (* (    *)
| GClose.                 (* )    *)

Definition regex : Type := list tok.

(** *** Character classes *)
Definition code (x : ascii) : N := N_of_ascii x.
Definition chr (c : ascii) : cclass := fun x => Ascii.eqb c x.
Definition range (lo hi : ascii) : cclass :=
  fun x => ((code lo <=? code x) && (code x <=? code hi))%N.
Definition union (c d : cclass) : cclass := fun x => c x || d x.

(** [\d], [\w] and [\s] of a Python 3 [str] pattern, on the code points up
    to U+00FF.  [\d] takes the decimal digits, of which there are only the
    ASCII ones in that range.  [\w] takes the underscore and what is
    alphanumeric: beside the ASCII letters and digits these are U+00AA, U+00B2,
    U+00B3, U+00B5, U+00B9, U+00BA, U+00BC to U+00BE and the letters U+00C0 to
    U+00FF without U+00D7 and U+00F7.  [\s] takes what is white space: the
    blank, U+0009 to U+000D, U+001C to U+001F, U+0085 and U+00A0. *)
Definition digit : cclass := range "0" "9".
Definition latin1_alnum : cclass :=
  union (chr "170")
    (union (range "178" "179")
       (union (chr "181")
          (union (range "185" "186")
             (union (range "188" "190")
                (union (range "192" "214")
                   (union (range "216" "246") (range "248" "255"))))))).
Definition word : cclass :=
  union (range "a" "z")
    (union (range "A" "Z") (union digit (union (chr "_") latin1_alnum))).
Definition space : cclass :=
  union (chr " ")
    (union (range "009" "013")
       (union (range "028" "031") (union (chr "133") (chr "160")))).
(** [.] without and with [re.DOTALL] *)
Definition dot : cclass := fun x => negb (Ascii.eqb "010" x).
Definition dot_all : cclass := fun _ => true.

(** A literal piece of pattern: one [One] token per character. *)
Fixpoint lit (s : string) : regex :=
  match s with
  | EmptyString => []
  | String c s' => One (chr c) :: lit s'
  end.

(** *** The matcher

    The text still ahead, a suffix of the subject, doubles as the position in
    the subject; [k] is the continuation (the rest of the pattern). *)
Section Matcher.
Context {R : Type}.
Implicit Types (k : string -> option R) (s : string).

Definition one (c : cclass) k s : option R :=
  match s with
  | String x s' => if c x then k s' else None
  | EmptyString => None
  end.

Definition opt (c : cclass) k s : option R :=
  match one c k s with
  | Some r => Some r
  | None => k s
  end.

Fixpoint greedy (c : cclass) k s : option R :=
  match s with
  | String x s' =>
    if c x then
      match greedy c k s' with
      | Some r => Some r
      | None => k s
      end
    else k s
  | EmptyString => k s
  end.

Fixpoint lazy (c : cclass) k s : option R :=
  match k s with
  | Some r => Some r
  | None =>
    match s with
    | String x s' => if c x then lazy c k s' else None
    | EmptyString => None
    end
  end.

End Matcher.

(** [run r marks s]: match [r] at the head of [s]; on success the text left
    after the match and the positions of the parentheses met, last first. *)
Fixpoint run (r : regex) (marks : list string) (s : string)
    : option (string * list string) :=
  match r with
  | [] => Some (s, marks)
  | One c :: r' => one c (run r' marks) s
  | Opt c :: r' => opt c (run r' marks) s
  | Star c :: r' => greedy c (run r' marks) s
  | Plus c :: r' => one c (greedy c (run r' marks)) s
  | LazyStar c :: r' => lazy c (run r' marks) s
  | GOpen :: r' => run r' (s :: marks) s
  | GClose :: r' => run r' (s :: marks) s
  end.

(** A match object: the positions where the match starts and ends, and for
    every group the positions of its two parentheses. *)
Record match_obj : Type := MatchObj {
  m_start : string;
  m_end : string;
  spans : list (string * string)
}.

Fixpoint pair_up (marks : list string) : list (string * string) :=
  match marks with
  | a :: b :: rest => (a, b) :: pair_up rest
  | _ => []
  end.

(** [re.compile(pattern).search(s)]: the first start position, from the left,
    at which the pattern matches. *)
Fixpoint search (r : regex) (s : string) : option match_obj :=
  match run r [] s with
  | Some (e, marks) => Some (MatchObj s e (pair_up (rev marks)))
  | None =>
    match s with
    | String _ s' => search r s'
    | EmptyString => None
    end
  end.

(** The text between two positions [a] and [b] of one subject, [a] first. *)
Definition between (a b : string) : string :=
  String.substring 0 (String.length a - String.length b) a.

(** [m.groups()] and [m.group(n)]; group 0 is the whole match, and [None]
    stands for Python's [IndexError] on a group that the pattern lacks. *)
Definition groups (m : match_obj) : list string :=
  (fun sp => between (fst sp) (snd sp)) <$> spans m.

Definition group (m : match_obj) (n : nat) : option string :=
  match n with
  | O => Some (between (m_start m) (m_end m))
  | S i => groups m !! i
  end.

(** *** Declarative reading of a pattern

    [Lang r w]: the text [w] as a whole is matched by [r]. *)
Fixpoint all_in (c : cclass) (w : string) : Prop :=
  match w with
  | EmptyString => True
  | String x w' => c x = true /\ all_in c w'
  end.

Fixpoint Lang (r : regex) (w : string) : Prop :=
  match r with
  | [] => w = EmptyString
  | One c :: r' => exists x w', w = String x w' /\ c x = true /\ Lang r' w'
  | Opt c :: r' =>
      Lang r' w \/ exists x w', w = String x w' /\ c x = true /\ Lang r' w'
  | Star c :: r' | LazyStar c :: r' =>
      exists u w', w = u +:+ w' /\ all_in c u /\ Lang r' w'
  | Plus c :: r' =>
      exists x u w', w = String x (u +:+ w') /\ c x = true /\ all_in c u /\ Lang r' w'
  | GOpen :: r' | GClose :: r' => Lang r' w
  end.

(** [Parse r w rest marks ms]: [Lang r w], for a match that has [rest] after
    it, with the parentheses in [marks] behind it and those in [ms] at its
    end. *)
Fixpoint Parse (r : regex) (w rest : string) (marks ms : list string) : Prop :=
  match r with
  | [] => w = EmptyString /\ ms = marks
  | One c :: r' =>
      exists x w', w = String x w' /\ c x = true /\ Parse r' w' rest marks ms
  | Opt c :: r' =>
      Parse r' w rest marks ms
      \/ exists x w', w = String x w' /\ c x = true /\ Parse r' w' rest marks ms
  | Star c :: r' | LazyStar c :: r' =>
      exists u w', w = u +:+ w' /\ all_in c u /\ Parse r' w' rest marks ms
  | Plus c :: r' =>
      exists x u w', w = String x (u +:+ w') /\ c x = true /\ all_in c u
                     /\ Parse r' w' rest marks ms
  | GOpen :: r' | GClose :: r' => Parse r' w rest ((w +:+ rest) :: marks) ms
  end.

(** [r] matches somewhere in [s]. *)
Definition occurs (r : regex) (s : string) : Prop :=
  exists pre w post, s = pre +:+ w +:+ post /\ Lang r w.

End Re.

(** ** [pytube.helpers] *)
Module Helpers.

(** Modelled from the spec: [pytube.helpers.regex_search] is imported by
    [cipher.py] but is not part of the sources at hand.  By the specification
    it searches the text for the pattern, fails with the error of the stage
    that called it when the pattern is absent (sections 4.1, 4.2, 4.4 and 7),
    and otherwise hands back what the caller asked for: one group
    ([group=n]) or all of them ([groups=True]).  The source passes no stage;
    here the error to raise is the first argument.  The pattern argument is
    the compiled pattern, so the [flags] are already in it. *)
Definition regex_search_group (fail : error) (pattern : Re.regex) (s : string)
    (n : nat) : result string :=
  match Re.search pattern s with
  | None => Err fail
  | Some m =>
    match Re.group m n with
    | Some g => Ok g
    | None => Err IndexError
    end
  end.

Definition regex_search_groups (fail : error) (pattern : Re.regex) (s : string)
    : result (list string) :=
  match Re.search pattern s with
  | None => Err fail
  | Some m => Ok (Re.groups m)
  end.

End Helpers.

(** ** [pytube.cipher] *)
Module Cipher.

Import Re Helpers.

(** The double quote character. *)
Definition dq : string := String "034" EmptyString.

(** [[a-zA-Z0-9$]] *)
Definition name_char : cclass :=
  union (range "a" "z") (union (range "A" "Z") (union (range "0" "9") (chr "$"))).

(** The pattern of [get_initial_function_name]: the text ["signature",], an
    optional [\s], group 1 around [[a-zA-Z0-9$]+], and an escaped opening
    parenthesis. *)
Definition initial_function_pattern : regex :=
  lit (dq +:+ "signature" +:+ dq +:+ ",")
  ++ [Opt space; GOpen; Plus name_char; GClose]
  ++ lit "(".

(** [def get_initial_function_name(js):
       return regex_search(pattern, js, group=1)] *)
Definition get_initial_function_name (js : string) : result string :=
  regex_search_group (PatternNotFound "entry_point") initial_function_pattern js 1.

(** The class of [get_transform_plan]: [a-z], [=], [.], the two parentheses
    and the double quote. *)
Definition preamble_char : cclass :=
  union (range "a" "z")
    (union (chr "=") (union (chr ".") (union (chr "(") (union (chr "034") (chr ")"))))).

(** The pattern of [get_transform_plan]: the name (it went through
    [re.escape] and so stands for itself), [=function\(\w\){], the class above
    under a star, [;], group 1 around a greedy dot-star, [;], a non-capturing
    group around dot-plus, and the closing brace. *)
Definition transform_plan_pattern (name : string) : regex :=
  lit name ++ lit "=function(" ++ [One word] ++ lit "){"
  ++ [Star preamble_char] ++ lit ";"
  ++ [GOpen; Star dot; GClose] ++ lit ";"
  ++ [Plus dot] ++ lit "}".

(** [def get_transform_plan(js):
       name = re.escape(get_initial_function_name(js))
       return regex_search(pattern, js, group=1).split(';')] *)
Definition get_transform_plan (js : string) : result (list string) :=
  name ← get_initial_function_name js;
  plan ← regex_search_group (PatternNotFound "transform_plan")
           (transform_plan_pattern name) js 1;
  Ok (Py.split ";" None plan).

(** The pattern of [get_transform_object]: [var ], the escaped [var], [={],
    group 1 around a lazy dot-star, [};]; it is compiled with [re.DOTALL], so
    the dot takes newlines too. *)
Definition transform_object_pattern (var : string) : regex :=
  lit "var " ++ lit var ++ lit "={"
  ++ [GOpen; LazyStar dot_all; GClose] ++ lit "};".

(** [def get_transform_object(js, var):
       return (regex_search(pattern, js, group=1, flags=re.DOTALL)
               .replace('\n', ' ').split(', '))] *)
Definition get_transform_object (js var : string) : result (list string) :=
  body ← regex_search_group (PatternNotFound "transform_object")
           (transform_object_pattern var) js 1;
  Ok (Py.split ", " None (Py.replace "010" " " body)).

Section Transforms.
Context {A : Type}.
Implicit Types (arr : list A) (b : Z).

(** [def reverse(arr, b): return arr[::-1]] *)
Definition reverse arr b : list A := Py.slice_backwards arr.

(** [def splice(arr, b): return arr[:b] + arr[b * 2:]] *)
Definition splice arr b : list A := Py.slice_to arr b ++ Py.slice_from arr (b * 2).

(** [def swap(arr, b):
       r = b % len(arr)
       return list(chain([arr[r]], arr[1:r], [arr[0]], arr[r + 1:]))] *)
Definition swap arr b : result (list A) :=
  r ← Py.mod_ b (Z.of_nat (length arr));
  ar ← Py.getitem arr r;
  a0 ← Py.getitem arr 0;
  Ok ([ar] ++ Py.slice arr 1 r ++ [a0] ++ Py.slice_from arr (r + 1)).

End Transforms.

(** The function objects that [map_functions] returns and the lookup table
    stores, and their application to a sequence and an integer. *)
Inductive transform : Type := fn_reverse | fn_splice | fn_swap.

Definition call {A} (fn : transform) (arr : list A) (b : Z) : result (list A) :=
  match fn with
  | fn_reverse => Ok (reverse arr b)
  | fn_splice => Ok (splice arr b)
  | fn_swap => swap arr b
  end.

(** ['{\w\.reverse\(\)}'] *)
Definition reverse_pattern : regex :=
  lit "{" ++ [One word] ++ lit ".reverse()}".

(** ['{\w\.splice\(0,\w\)}'] *)
Definition splice_pattern : regex :=
  lit "{" ++ [One word] ++ lit ".splice(0," ++ [One word] ++ lit ")}".

(** ['{var\s\w=\w\[0\];\w\[0\]=\w\[\w\%\w.length\];\w\[\w\]=\w}'] (the dot
    before [length] is not escaped) *)
Definition swap_pattern : regex :=
  lit "{var" ++ [One space; One word] ++ lit "=" ++ [One word] ++ lit "[0];"
  ++ [One word] ++ lit "[0]=" ++ [One word] ++ lit "[" ++ [One word] ++ lit "%"
  ++ [One word; One dot] ++ lit "length];"
  ++ [One word] ++ lit "[" ++ [One word] ++ lit "]=" ++ [One word] ++ lit "}".

Definition mapper : list (regex * transform) :=
  [ (reverse_pattern, fn_reverse);
    (splice_pattern, fn_splice);
    (swap_pattern, fn_swap) ].

(** [def map_functions(js_func):
       for pattern, fn in mapper:
           if re.search(pattern, js_func):
               return fn
       raise RegexMatchError(
           'could not find python equivalent function for: ', js_func)] *)
Fixpoint first_match (table : list (regex * transform)) (js_func : string)
    : option transform :=
  match table with
  | [] => None
  | (pattern, fn) :: rest =>
    match search pattern js_func with
    | Some _ => Some fn
    | None => first_match rest js_func
    end
  end.

Definition map_functions (js_func : string) : result transform :=
  match first_match mapper js_func with
  | Some fn => Ok fn
  | None => Err (UnknownOperationShape js_func)
  end.

(** [def get_transform_map(js, var):
       transform_object = get_transform_object(js, var)
       mapper = {}
       for obj in transform_object:
           name, function = obj.split(':', 1)
           fn = map_functions(function)
           mapper[name] = fn
       return mapper]
    Unpacking anything but two pieces raises [ValueError]. *)
Definition add_transform (table : gmap string transform) (obj : string)
    : result (gmap string transform) :=
  match Py.split ":" (Some 1%nat) obj with
  | [name; function] =>
    fn ← map_functions function;
    Ok (<[name := fn]> table)
  | _ => Err ValueError
  end.

Definition get_transform_map (js var : string) : result (gmap string transform) :=
  transform_object ← get_transform_object js var;
  Py.for_each add_transform ∅ transform_object.

(** The pattern of [parse_function]: [\w+], an escaped dot, group 1 around
    [\w+], an escaped opening parenthesis, [\w], a comma, group 2 around
    [\d+], an escaped closing parenthesis. *)
Definition call_pattern : regex :=
  [Plus word] ++ lit "." ++ [GOpen; Plus word; GClose] ++ lit "("
  ++ [One word] ++ lit "," ++ [GOpen; Plus digit; GClose] ++ lit ")".

(** [def parse_function(js_func):
       return regex_search(pattern, js_func, groups=True)] *)
Definition parse_function (js_func : string) : result (list string) :=
  regex_search_groups (MalformedCall js_func) call_pattern js_func.

(** One turn of the loop of [get_signature]:
    [name, argument = parse_function(js_func)
     signature = tmap[name](signature, int(argument))]
    The subscript [tmap[name]] is evaluated before the arguments; a missing
    key is Python's [KeyError], the specification's [UnknownOperationName]. *)
Definition apply_step (tmap : gmap string transform) (signature : list ascii)
    (js_func : string) : result (list ascii) :=
  parsed ← parse_function js_func;
  match parsed with
  | [name; argument] =>
    match tmap !! name with
    | None => Err (UnknownOperationName name)
    | Some fn =>
      b ← Py.int argument;
      call fn signature b
    end
  | _ => Err ValueError
  end.

(** [def get_signature(js, ciphered_signature):
       tplan = get_transform_plan(js)
       var, _ = tplan[0].split('.')
       tmap = get_transform_map(js, var)
       signature = [s for s in ciphered_signature]
       for js_func in tplan: ...
       return ''.join(signature)] *)
Definition get_signature (js ciphered_signature : string) : result string :=
  tplan ← get_transform_plan js;
  first ← Py.getitem tplan 0;
  var ← match Py.split "." None first with
        | [var; _] => Ok var
        | _ => Err ValueError
        end;
  tmap ← get_transform_map js var;
  signature ← Py.for_each (apply_step tmap) (Py.chars ciphered_signature) tplan;
  Ok (Py.join signature).

End Cipher.

(** ** A script asset to run the module on *)

Definition sample_js : string :=
  "var DE={AJ:function(a){a.reverse()}, VR:function(a,b){a.splice(0,b)}};"
  +:+ "EE=function(a){a=a.split(" +:+ Cipher.dq +:+ Cipher.dq +:+ ");"
  +:+ "DE.AJ(a,0);DE.VR(a,2);"
  +:+ "return a.join(" +:+ Cipher.dq +:+ Cipher.dq +:+ ")};"
  +:+ "c&&d.set(" +:+ Cipher.dq +:+ "signature" +:+ Cipher.dq +:+ ",EE(c));".

(** [sample_js] with a rotary-swap function [kT] in the container and a plan
    that calls it. *)
Definition sample_js_swap : string :=
  "var DE={AJ:function(a){a.reverse()}, "
  +:+ "kT:function(a,b){var c=a[0];a[0]=a[b%a.length];a[b]=c}};"
  +:+ "EE=function(a){a=a.split(" +:+ Cipher.dq +:+ Cipher.dq +:+ ");"
  +:+ "DE.AJ(a,0);DE.kT(a,3);"
  +:+ "return a.join(" +:+ Cipher.dq +:+ Cipher.dq +:+ ")};"
  +:+ "c&&d.set(" +:+ Cipher.dq +:+ "signature" +:+ Cipher.dq +:+ ",EE(c));".

(** The plan of [sample_js_swap] and the lookup table of its container. *)
Definition sample_plan_swap : list string := ["DE.AJ(a,0)"; "DE.kT(a,3)"].

Definition sample_table_swap : gmap string Cipher.transform :=
  <["kT" := Cipher.fn_swap]> (<["AJ" := Cipher.fn_reverse]> ∅).

(** A script whose signature function holds no call at all between its first
    statement and its last. *)
Definition empty_plan_js : string :=
  "EE=function(a){;;x}"
  +:+ "c&&d.set(" +:+ Cipher.dq +:+ "signature" +:+ Cipher.dq +:+ ",EE(c));".

(** [sample_js_swap] with a plan that first calls a function [ZZ], which the
    container lacks, and then the rotary-swap function [kT]. *)
Definition sample_js_unknown : string :=
  "var DE={AJ:function(a){a.reverse()}, "
  +:+ "kT:function(a,b){var c=a[0];a[0]=a[b%a.length];a[b]=c}};"
  +:+ "EE=function(a){a=a.split(" +:+ Cipher.dq +:+ Cipher.dq +:+ ");"
  +:+ "DE.ZZ(a,1);DE.kT(a,3);"
  +:+ "return a.join(" +:+ Cipher.dq +:+ Cipher.dq +:+ ")};"
  +:+ "c&&d.set(" +:+ Cipher.dq +:+ "signature" +:+ Cipher.dq +:+ ",EE(c));".

(** A script whose container binds the name [AJ] twice. *)
Definition sample_js_twice : string :=
  "var DE={AJ:function(a){a.reverse()}, AJ:function(a,b){a.splice(0,b)}};"
  +:+ "EE=function(a){a=a.split(" +:+ Cipher.dq +:+ Cipher.dq +:+ ");"
  +:+ "DE.AJ(a,1);"
  +:+ "return a.join(" +:+ Cipher.dq +:+ Cipher.dq +:+ ")};"
  +:+ "c&&d.set(" +:+ Cipher.dq +:+ "signature" +:+ Cipher.dq +:+ ",EE(c));".

(** ** Notions used to state the properties *)
Module Spec.

Import Cipher.

(** The entry-point marker is present in [js]: somewhere in it stands the text
    ["signature",], then at most one white-space character, then a non-empty
    name made of letters, digits and [$], then an opening parenthesis. *)
Definition entry_marker_at (js pre ws name post : string) : Prop :=
  js = pre +:+ (dq +:+ "signature" +:+ dq +:+ ",") +:+ ws +:+ name +:+ "(" +:+ post
  /\ (ws = EmptyString \/ exists c, ws = String c EmptyString /\ Re.space c = true)
  /\ name <> EmptyString
  /\ Re.all_in name_char name.

Definition entry_marker_present (js : string) : Prop :=
  exists pre ws name post, entry_marker_at js pre ws name post.

(** The steps of [get_signature] that come before its loop: the plan, and the
    lookup table of the container named in the first entry of the plan. *)
Definition plan_and_table (js : string)
    : result (list string * gmap string transform) :=
  tplan ← get_transform_plan js;
  first ← Py.getitem tplan 0;
  var ← match Py.split "." None first with
        | [var; _] => Ok var
        | _ => Err ValueError
        end;
  tmap ← get_transform_map js var;
  Ok (tplan, tmap).

(** The transform that a plan entry calls: the entry parses, its name is in
    the table, and [int] accepts its argument. *)
Definition called (tmap : gmap string transform) (js_func : string)
    : option transform :=
  match parse_function js_func with
  | Ok [name; argument] =>
    match tmap !! name, Py.int argument with
    | Some fn, Ok _ => Some fn
    | _, _ => None
    end
  | _ => None
  end.

(** A plan entry that calls some transform of the table; one that calls
    [swap]. *)
Definition resolves (tmap : gmap string transform) (js_func : string) : bool :=
  match called tmap js_func with Some _ => true | None => false end.

Definition calls_swap (tmap : gmap string transform) (js_func : string) : bool :=
  match called tmap js_func with Some fn_swap => true | _ => false end.

(** The four kinds of error that the specification lists (section 7). *)
Definition in_taxonomy (e : error) : bool :=
  match e with
  | PatternNotFound _ | UnknownOperationShape _
  | UnknownOperationName _ | MalformedCall _ => true
  | ZeroDivisionError | IndexError | ValueError => false
  end.

(** A call expression: a text that [parse_function] accepts. *)
Definition is_call (js_func : string) : bool :=
  match parse_function js_func with Ok _ => true | Err _ => false end.

(** The number of parentheses in a pattern. *)
Fixpoint parens (r : Re.regex) : nat :=
  match r with
  | [] => 0
  | Re.GOpen :: r' | Re.GClose :: r' => S (parens r')
  | _ :: r' => parens r'
  end.

End Spec.

(** ** Further notions *)
Module Props.

(** The character [c] does not occur in [s]. *)
Definition free_of (c : ascii) (s : string) : Prop :=
  Re.all_in (fun x => negb (Ascii.eqb c x)) s.

(** The errors of a plan entry that does not parse or that names a function
    missing from the table. *)
Definition call_error (e : error) : Prop :=
  (exists text, e = MalformedCall text) \/ (exists name, e = UnknownOperationName name).

(** The script defines the container [var]: it holds the text [var ], the
    name, [={], any text, and [};]. *)
Definition container_defined (js var : string) : Prop :=
  exists pre body post,
    js = pre +:+ "var " +:+ var +:+ "={" +:+ body +:+ "};" +:+ post.

(** The errors that the steps of [get_signature] before its loop raise. *)
Definition preparation_error (e : error) : Prop :=
  (exists stage, e = PatternNotFound stage)
  \/ e = ValueError
  \/ (exists text, e = UnknownOperationShape text).

End Props.

(** * Facts about the Python primitives *)

Ltac bind_step := cbn [mbind result_bind mret result_ret].

Section SliceFacts.
Context {A : Type}.
Implicit Types (arr l : list A) (b : Z).

Lemma slice_bound_nonneg arr b :
  0 <= b -> Py.slice_bound arr b = Nat.min (Z.to_nat b) (length arr).
Proof.
  intros Hb. unfold Py.slice_bound.
  destruct (Z.ltb_spec b 0) as [?|_]; [lia|]. lia.
Qed.

Lemma slice_to_nonneg arr b : 0 <= b -> Py.slice_to arr b = take (Z.to_nat b) arr.
Proof.
  intros Hb. unfold Py.slice_to. rewrite slice_bound_nonneg by done.
  destruct (Nat.le_ge_cases (Z.to_nat b) (length arr)) as [Hle|Hge].
  - by rewrite Nat.min_l.
  - rewrite Nat.min_r by done. by rewrite !take_ge by lia.
Qed.

Lemma slice_from_nonneg arr b : 0 <= b -> Py.slice_from arr b = drop (Z.to_nat b) arr.
Proof.
  intros Hb. unfold Py.slice_from. rewrite slice_bound_nonneg by done.
  destruct (Nat.le_ge_cases (Z.to_nat b) (length arr)) as [Hle|Hge].
  - by rewrite Nat.min_l.
  - rewrite Nat.min_r by done. by rewrite !drop_ge by lia.
Qed.

Lemma slice_nonneg arr i j :
  0 <= i -> 0 <= j ->
  Py.slice arr i j = take (Z.to_nat j - Z.to_nat i) (drop (Z.to_nat i) arr).
Proof.
  intros Hi Hj. unfold Py.slice. rewrite !slice_bound_nonneg by done.
  destruct (Nat.le_ge_cases (Z.to_nat i) (length arr)) as [Hi'|Hi'].
  - rewrite (Nat.min_l (Z.to_nat i)) by done.
    destruct (Nat.le_ge_cases (Z.to_nat j) (length arr)) as [Hj'|Hj'].
    + by rewrite Nat.min_l.
    + rewrite Nat.min_r by done.
      rewrite !take_ge; [done| |]; rewrite length_drop; lia.
  - rewrite (Nat.min_r (Z.to_nat i)) by done.
    rewrite !drop_ge by lia. by rewrite !take_nil.
Qed.

Lemma getitem_lookup arr (n : nat) x :
  arr !! n = Some x -> Py.getitem arr (Z.of_nat n) = Ok x.
Proof.
  intros Hx. pose proof (lookup_lt_Some _ _ _ Hx) as Hlt.
  unfold Py.getitem. cbv zeta.
  assert ((Z.of_nat n <? 0) = false) as H0 by (apply Z.ltb_ge; lia).
  assert ((Z.of_nat (length arr) <=? Z.of_nat n) = false) as Hn
    by (apply Z.leb_gt; lia).
  rewrite H0. cbv iota. rewrite H0, Hn. cbn [orb].
  rewrite Nat2Z.id, Hx. reflexivity.
Qed.

Lemma getitem_head x l : Py.getitem (x :: l) 0 = Ok x.
Proof. exact (getitem_lookup (x :: l) 0 x eq_refl). Qed.

(** [arr[::-1]] is the reversed list. *)
Lemma slice_backwards_reverse arr : Py.slice_backwards arr = reverse arr.
Proof.
  unfold Py.slice_backwards.
  induction arr as [|x l IH] using rev_ind; [done|].
  rewrite length_app, reverse_snoc. simpl length.
  replace (length l + 1)%nat with (S (length l)) by lia.
  cbn [seq]. csimpl.
  replace ((l ++ [x]) !! (length l - 0 - 0)%nat) with (Some x)
    by (symmetry; apply list_lookup_middle; lia).
  f_equal. rewrite <- IH, <- fmap_S_seq.
  apply list_omap_ext, Forall2_fmap_l, Forall_Forall2_diag, Forall_forall.
  intros k Hk. apply elem_of_seq in Hk.
  unfold compose. rewrite lookup_app_l by lia. f_equal. lia.
Qed.

End SliceFacts.

(** * The three transforms *)

Section TransformFacts.
Context {A : Type}.
Implicit Types (a arr l : list A) (b : Z).

Lemma reverse_is_reverse a b : Cipher.reverse a b = reverse a.
Proof. apply slice_backwards_reverse. Qed.

(** The element at index [i] of the reversed sequence is the one at index
    [len - 1 - i] of the input. *)
Lemma reverse_lookup_mirror a b (i : nat) :
  (i < length a)%nat ->
  Cipher.reverse a b !! i = a !! (length a - S i)%nat.
Proof. intros Hi. rewrite reverse_is_reverse. by apply reverse_lookup. Qed.

(** For a non-negative [b] the result of [splice] is the first [b] elements
    followed by what comes after the first [2 * b]. *)
Lemma splice_nonneg a b :
  0 <= b ->
  Cipher.splice a b = take (Z.to_nat b) a ++ drop (2 * Z.to_nat b) a.
Proof.
  intros Hb. unfold Cipher.splice.
  rewrite slice_to_nonneg, slice_from_nonneg by lia.
  do 2 f_equal. lia.
Qed.

Lemma splice_zero a : Cipher.splice a 0 = a.
Proof. by rewrite splice_nonneg. Qed.

Lemma mod_len_cons (x : A) l b :
  Py.mod_ b (Z.of_nat (length (x :: l))) = Ok (b mod Z.of_nat (S (length l))).
Proof.
  unfold Py.mod_. simpl length.
  destruct (Z.eqb_spec (Z.of_nat (S (length l))) 0) as [?|_]; [lia|done].
Qed.

(** [swap] when [b % len(arr)] is zero: the head is put in front of the whole
    input. *)
Lemma swap_zero x l b :
  b mod Z.of_nat (S (length l)) = 0 ->
  Cipher.swap (x :: l) b = Ok (x :: x :: l).
Proof.
  intros Hr. unfold Cipher.swap. rewrite mod_len_cons, Hr. bind_step.
  rewrite getitem_head. bind_step.
  by rewrite slice_nonneg, slice_from_nonneg by lia.
Qed.

(** [swap] when [b % len(arr)] is [k + 1]: head and element [k + 1] trade
    places. *)
Lemma swap_nonzero x y l b (k : nat) :
  b mod Z.of_nat (S (length l)) = Z.of_nat (S k) ->
  l !! k = Some y ->
  Cipher.swap (x :: l) b = Ok (y :: <[k := x]> l).
Proof.
  intros Hr Hy. pose proof (lookup_lt_Some _ _ _ Hy) as Hk.
  unfold Cipher.swap. rewrite mod_len_cons, Hr. bind_step.
  rewrite (getitem_lookup (x :: l) (S k) y) by done. bind_step.
  rewrite getitem_head. bind_step.
  rewrite slice_nonneg, slice_from_nonneg by lia.
  replace (Z.to_nat (Z.of_nat (S k)) - Z.to_nat 1)%nat with k by lia.
  replace (Z.to_nat 1) with 1%nat by lia.
  replace (Z.to_nat (Z.of_nat (S k) + 1)) with (S (S k)) by lia.
  cbn [drop]. rewrite drop_0. do 2 f_equal.
  by rewrite insert_take_drop.
Qed.

Lemma swap_nonzero_inserts x y l b (k : nat) :
  b mod Z.of_nat (S (length l)) = Z.of_nat (S k) ->
  l !! k = Some y ->
  Cipher.swap (x :: l) b = Ok (<[0%nat := y]> (<[S k := x]> (x :: l))).
Proof. apply swap_nonzero. Qed.

End TransformFacts.

Section SwapTwice.
Context {A : Type}.
Implicit Types (a l : list A) (x y : A) (b : Z).

(** For a non-empty input the offset [b % len(arr)] is an index of it. *)
Lemma offset_in_range l b :
  0 <= b mod Z.of_nat (S (length l)) < Z.of_nat (S (length l)).
Proof. apply Z.mod_pos_bound. lia. Qed.

Lemma swap_twice_nonzero x l b :
  b mod Z.of_nat (S (length l)) <> 0 ->
  Cipher.swap (x :: l) b ≫= (fun a' => Cipher.swap a' b) = Ok (x :: l).
Proof.
  intros Hr. pose proof (offset_in_range l b) as Hb.
  set (k := (Z.to_nat (b mod Z.of_nat (S (length l))) - 1)%nat).
  assert (b mod Z.of_nat (S (length l)) = Z.of_nat (S k)) as Hk by lia.
  destruct (lookup_lt_is_Some_2 l k) as [y Hy]; [lia|].
  rewrite (swap_nonzero x y l b k) by done. bind_step.
  rewrite (swap_nonzero y x (<[k := x]> l) b k).
  - by rewrite list_insert_insert_eq, list_insert_id.
  - by rewrite length_insert.
  - apply list_lookup_insert_eq. by eapply lookup_lt_Some.
Qed.

End SwapTwice.

(** * Strings *)

Section StringFacts.
Implicit Types (s t u : string) (x : ascii).

Lemma str_app_nil_l s : "" +:+ s = s.
Proof. reflexivity. Qed.

Lemma str_app_cons x s t : String x s +:+ t = String x (s +:+ t).
Proof. reflexivity. Qed.

Lemma str_app_assoc s t u : (s +:+ t) +:+ u = s +:+ t +:+ u.
Proof. induction s as [|x s IH]; [done|]. by rewrite !str_app_cons, IH. Qed.

Lemma str_length_app s t :
  String.length (s +:+ t) = (String.length s + String.length t)%nat.
Proof.
  induction s as [|x s IH]; [done|].
  rewrite str_app_cons. simpl. by rewrite IH.
Qed.

Lemma substring_prefix s t : String.substring 0 (String.length s) (s +:+ t) = s.
Proof.
  induction s as [|x s IH]; [by destruct t|].
  rewrite str_app_cons. simpl. by rewrite IH.
Qed.

(** The text between the position of [s +:+ t] and that of [t] is [s]. *)
Lemma between_app s t : Re.between (s +:+ t) t = s.
Proof.
  unfold Re.between. rewrite str_length_app.
  replace (String.length s + String.length t - String.length t)%nat
    with (String.length s) by lia.
  apply substring_prefix.
Qed.

End StringFacts.

(** * The matcher finds only what the pattern describes *)

Section MatcherSound.
Context {R : Type} (c : Re.cclass) (k : string -> option R).
Implicit Types (s : string) (r : R).

Lemma one_sound s r :
  Re.one c k s = Some r ->
  exists x s', s = String x s' /\ c x = true /\ k s' = Some r.
Proof.
  destruct s as [|x s']; [done|]. simpl.
  destruct (c x) eqn:Hx; [|done]. eauto.
Qed.

Lemma opt_sound s r :
  Re.opt c k s = Some r ->
  k s = Some r \/ exists x s', s = String x s' /\ c x = true /\ k s' = Some r.
Proof.
  unfold Re.opt. destruct (Re.one c k s) as [r'|] eqn:Hone.
  - intros [= <-]. right. by apply one_sound.
  - by left.
Qed.

Lemma greedy_sound s r :
  Re.greedy c k s = Some r ->
  exists u s', s = u +:+ s' /\ Re.all_in c u /\ k s' = Some r.
Proof.
  induction s as [|x s IH]; simpl.
  - intros Hk. by exists "", "".
  - destruct (c x) eqn:Hx.
    + destruct (Re.greedy c k s) as [r'|] eqn:Hg.
      * intros [= <-]. destruct (IH eq_refl) as (u & s' & -> & Hu & Hk).
        exists (String x u), s'. by rewrite str_app_cons.
      * intros Hk. by exists "", (String x s).
    + intros Hk. by exists "", (String x s).
Qed.

Lemma lazy_sound s r :
  Re.lazy c k s = Some r ->
  exists u s', s = u +:+ s' /\ Re.all_in c u /\ k s' = Some r.
Proof.
  induction s as [|x s IH]; simpl.
  - destruct (k "") as [r'|] eqn:Hk; [|done].
    intros [= <-]. by exists "", "".
  - destruct (k (String x s)) as [r'|] eqn:Hk.
    + intros [= <-]. by exists "", (String x s).
    + destruct (c x) eqn:Hx; [|done].
      intros (u & s' & -> & Hu & Hk')%IH.
      exists (String x u), s'. by rewrite str_app_cons.
Qed.

End MatcherSound.

Lemma run_sound r : forall marks s rest ms,
  Re.run r marks s = Some (rest, ms) ->
  exists w, s = w +:+ rest /\ Re.Parse r w rest marks ms.
Proof.
  induction r as [|t r IH]; intros marks s rest ms Hrun.
  - injection Hrun as -> ->. by exists "".
  - destruct t as [c|c|c|c|c| |]; cbn [Re.run Re.Parse] in *.
    + apply one_sound in Hrun as (x & s' & -> & Hx & Hk).
      apply IH in Hk as (w & -> & Hw). exists (String x w). eauto 10.
    + apply opt_sound in Hrun as [Hk|(x & s' & -> & Hx & Hk)];
        apply IH in Hk as (w & -> & Hw).
      * exists w. eauto.
      * exists (String x w). eauto 10.
    + apply greedy_sound in Hrun as (u & s' & -> & Hu & Hk).
      apply IH in Hk as (w & -> & Hw).
      exists (u +:+ w). rewrite str_app_assoc. eauto 10.
    + apply one_sound in Hrun as (x & s' & -> & Hx & Hk).
      apply greedy_sound in Hk as (u & s'' & -> & Hu & Hk).
      apply IH in Hk as (w & -> & Hw).
      exists (String x (u +:+ w)). rewrite str_app_cons, str_app_assoc. eauto 10.
    + apply lazy_sound in Hrun as (u & s' & -> & Hu & Hk).
      apply IH in Hk as (w & -> & Hw).
      exists (u +:+ w). rewrite str_app_assoc. eauto 10.
    + apply IH in Hrun as (w & -> & Hw). eauto.
    + apply IH in Hrun as (w & -> & Hw). eauto.
Qed.

Lemma Parse_Lang r : forall w rest marks ms,
  Re.Parse r w rest marks ms -> Re.Lang r w.
Proof.
  induction r as [|t r IH]; intros w rest marks ms; [by intros [? _]|].
  destruct t as [c|c|c|c|c| |]; cbn [Re.Parse Re.Lang].
  - intros (x & w' & -> & Hx & H). eauto 10.
  - intros [H|(x & w' & -> & Hx & H)]; eauto 10.
  - intros (u & w' & -> & Hu & H). eauto 10.
  - intros (x & u & w' & -> & Hx & Hu & H). eauto 10.
  - intros (u & w' & -> & Hu & H). eauto 10.
  - apply IH.
  - apply IH.
Qed.

(** What a successful search stands for: the subject is some text, then a
    text [w] that the pattern describes, then the text after the match. *)
Lemma search_sound r s m :
  Re.search r s = Some m ->
  exists pre w ms,
    s = pre +:+ w +:+ Re.m_end m
    /\ Re.m_start m = w +:+ Re.m_end m
    /\ Re.Parse r w (Re.m_end m) [] ms
    /\ Re.spans m = Re.pair_up (rev ms).
Proof.
  induction s as [|x s IH]; cbn [Re.search].
  - destruct (Re.run r [] "") as [[e ms]|] eqn:Hrun; [|done].
    intros [= <-]. apply run_sound in Hrun as (w & Hs & Hw).
    exists "", w, ms. eauto.
  - destruct (Re.run r [] (String x s)) as [[e ms]|] eqn:Hrun.
    + intros [= <-]. apply run_sound in Hrun as (w & Hs & Hw).
      exists "", w, ms. eauto.
    + intros (pre & w & ms & -> & ? & ? & ?)%IH.
      exists (String x pre), w, ms. eauto.
Qed.

Lemma search_occurs r s m : Re.search r s = Some m -> Re.occurs r s.
Proof.
  intros (pre & w & ms & Hs & _ & Hw & _)%search_sound.
  exists pre, w, (Re.m_end m). eauto using Parse_Lang.
Qed.

(** A pattern that occurs nowhere in the text is not found. *)
Lemma search_absent r s : ~ Re.occurs r s -> Re.search r s = None.
Proof.
  intros Hno. destruct (Re.search r s) as [m|] eqn:Hm; [|done].
  destruct Hno. by eapply search_occurs.
Qed.

(** * The patterns of [cipher.py] *)

Section PatternFacts.
Implicit Types (r : Re.regex) (w rest s t : string) (marks ms : list string).

Lemma chr_true c x : Re.chr c x = true -> x = c.
Proof. unfold Re.chr. by intros ->%Ascii.eqb_eq. Qed.

(** A literal piece of pattern stands for its own text. *)
Lemma Parse_lit t r : forall w rest marks ms,
  Re.Parse (Re.lit t ++ r) w rest marks ms ->
  exists w', w = t +:+ w' /\ Re.Parse r w' rest marks ms.
Proof.
  induction t as [|c t IH]; intros w rest marks ms; [by exists w|].
  cbn [Re.lit app Re.Parse].
  intros (x & w1 & -> & ->%chr_true & (w' & -> & Hw)%IH). by exists w'.
Qed.

Lemma Lang_lit t r : forall w,
  Re.Lang (Re.lit t ++ r) w -> exists w', w = t +:+ w' /\ Re.Lang r w'.
Proof.
  induction t as [|c t IH]; intros w; [by exists w|].
  cbn [Re.lit app Re.Lang].
  intros (x & w1 & -> & ->%chr_true & (w' & -> & Hw)%IH). by exists w'.
Qed.

(** Every parenthesis of the pattern leaves one mark. *)
Lemma Parse_marks r : forall w rest marks ms,
  Re.Parse r w rest marks ms -> length ms = (Spec.parens r + length marks)%nat.
Proof.
  induction r as [|t r IH]; intros w rest marks ms.
  - by intros [_ ->].
  - destruct t as [c|c|c|c|c| |]; cbn [Re.Parse Spec.parens].
    + intros (x & w' & -> & Hx & H). eauto.
    + intros [H|(x & w' & -> & Hx & H)]; eauto.
    + intros (u & w' & -> & Hu & H). eauto.
    + intros (x & u & w' & -> & Hx & Hu & H). eauto.
    + intros (u & w' & -> & Hu & H). eauto.
    + intros ->%IH. simpl. lia.
    + intros ->%IH. simpl. lia.
Qed.

Lemma parens_app r1 r2 : Spec.parens (r1 ++ r2) = (Spec.parens r1 + Spec.parens r2)%nat.
Proof.
  induction r1 as [|t r1 IH]; [done|].
  destruct t; simpl; by rewrite IH.
Qed.

Lemma parens_lit t : Spec.parens (Re.lit t) = 0%nat.
Proof. induction t as [|c t IH]; [done|]. simpl. exact IH. Qed.

End PatternFacts.

Section SearchFacts.
Implicit Types (r : Re.regex) (s : string) (m : Re.match_obj).

(** A pattern with one pair of parentheses yields a match with a group 1. *)
Lemma search_group_1 r s m :
  Spec.parens r = 2%nat ->
  Re.search r s = Some m ->
  exists g, Re.group m 1 = Some g.
Proof.
  intros Hr (pre & w & ms & _ & _ & Hw & Hsp)%search_sound.
  apply Parse_marks in Hw. rewrite Hr in Hw.
  destruct ms as [|b [|a [|? ?]]]; simplify_eq/=.
  unfold Re.group, Re.groups. rewrite Hsp. simpl. eauto.
Qed.

Lemma regex_search_group_cases fail r s :
  Spec.parens r = 2%nat ->
  Helpers.regex_search_group fail r s 1 = Err fail
  \/ exists g, Helpers.regex_search_group fail r s 1 = Ok g.
Proof.
  intros Hr. unfold Helpers.regex_search_group.
  destruct (Re.search r s) as [m|] eqn:Hm; [|by left].
  destruct (search_group_1 r s m Hr Hm) as [g ->]. eauto.
Qed.

Lemma regex_search_group_absent fail r s n :
  ~ Re.occurs r s -> Helpers.regex_search_group fail r s n = Err fail.
Proof.
  intros Hno. unfold Helpers.regex_search_group.
  by rewrite search_absent.
Qed.

End SearchFacts.

Lemma parens_initial_function_pattern :
  Spec.parens Cipher.initial_function_pattern = 2%nat.
Proof. reflexivity. Qed.

Lemma parens_transform_plan_pattern name :
  Spec.parens (Cipher.transform_plan_pattern name) = 2%nat.
Proof.
  unfold Cipher.transform_plan_pattern.
  rewrite parens_app, parens_lit. reflexivity.
Qed.

(** The pattern of [get_initial_function_name] occurs only where the
    entry-point marker stands. *)
Lemma initial_function_pattern_marker js :
  Re.occurs Cipher.initial_function_pattern js -> Spec.entry_marker_present js.
Proof.
  intros (pre & w & post & -> & Hw).
  unfold Cipher.initial_function_pattern in Hw.
  apply Lang_lit in Hw as (w1 & -> & Hw). cbn [app Re.lit Re.Lang] in Hw.
  assert (forall v, (exists x u w', v = String x (u +:+ w')
            /\ Cipher.name_char x = true /\ Re.all_in Cipher.name_char u
            /\ exists y w'', w' = String y w'' /\ Re.chr "(" y = true /\ w'' = "")
          -> exists name, v = name +:+ "(" /\ name <> ""
               /\ Re.all_in Cipher.name_char name) as Hname.
  { intros v (x & u & w' & -> & Hx & Hu & y & w'' & -> & ->%chr_true & ->).
    exists (String x u). by rewrite str_app_cons. }
  destruct Hw as [Hv|(c & v & -> & Hc & Hv)];
    apply Hname in Hv as (name & -> & Hne & Hall).
  - exists pre, "", name, post. split; [|by eauto].
    by rewrite str_app_nil_l, !str_app_assoc.
  - exists pre, (String c ""), name, post. split; [|by eauto 10].
    by rewrite !str_app_assoc, !str_app_cons, str_app_assoc.
Qed.

Lemma split_go_nonempty s : forall sep budget skip cur,
  Py.split_go sep budget skip cur s <> [].
Proof.
  induction s as [|c s IH]; intros sep budget skip cur; cbn [Py.split_go].
  - discriminate.
  - destruct skip; [|apply IH].
    destruct (Py.may_split budget && String.prefix sep (String c s));
      [discriminate|apply IH].
Qed.

Lemma split_nonempty sep maxsplit s : Py.split sep maxsplit s <> [].
Proof. apply split_go_nonempty. Qed.

(** * Plan entries *)

Section CallFacts.
Implicit Types (c name arg s u : string) (x : ascii).

Lemma digit_value_digit x :
  Re.digit x = true -> exists d, Py.digit_value x = Some d.
Proof.
  unfold Re.digit, Re.range, Re.code, Py.digit_value.
  change (N_of_ascii "0") with 48%N. change (N_of_ascii "9") with 57%N.
  intros [H0 H9]%andb_true_iff.
  apply N.leb_le in H0. apply N.leb_le in H9. cbv zeta.
  assert ((48 <=? Z.of_N (N_of_ascii x)) = true) as -> by (apply Z.leb_le; lia).
  assert ((Z.of_N (N_of_ascii x) <=? 57) = true) as -> by (apply Z.leb_le; lia).
  simpl. eauto.
Qed.

Lemma int_go_digits s : forall acc,
  Re.all_in Re.digit s -> exists n, Py.int_go acc s = Ok n.
Proof.
  induction s as [|x s IH]; intros acc; simpl; [by eauto|].
  intros [[d ->]%digit_value_digit Hs]. by apply IH.
Qed.

Lemma int_short s :
  s <> "" -> Z.of_nat (String.length s) <= Py.int_max_str_digits ->
  Py.int s = Py.int_go 0 s.
Proof.
  intros Hs Hlen. destruct s as [|x u]; [done|]. unfold Py.int.
  destruct (Z.leb_spec (Z.of_nat (String.length (String x u)))
              Py.int_max_str_digits); [done|lia].
Qed.

Lemma int_long s :
  Py.int_max_str_digits < Z.of_nat (String.length s) ->
  Py.int s = Err ValueError.
Proof.
  intros Hlen. destruct s as [|x u]; [done|]. unfold Py.int.
  destruct (Z.leb_spec (Z.of_nat (String.length (String x u)))
              Py.int_max_str_digits); [lia|done].
Qed.

(** [int] accepts what [\d+] matches, up to the length that it converts. *)
Lemma int_digits x u :
  Re.digit x = true -> Re.all_in Re.digit u ->
  Z.of_nat (String.length (String x u)) <= Py.int_max_str_digits ->
  exists n, Py.int (String x u) = Ok n.
Proof.
  intros Hx Hu Hlen. rewrite int_short by done. by apply int_go_digits.
Qed.

Lemma int_go_error s : forall acc e, Py.int_go acc s = Err e -> e = ValueError.
Proof.
  induction s as [|x s IH]; intros acc e; simpl; [done|].
  destruct (Py.digit_value x); [apply IH|]. by intros [= <-].
Qed.

(** [int] raises nothing but [ValueError]. *)
Lemma int_error s e : Py.int s = Err e -> e = ValueError.
Proof.
  unfold Py.int. destruct s as [|x u]; [by intros [= <-]|].
  destruct (_ <=? _); [apply int_go_error|by intros [= <-]].
Qed.

(** What [parse_function] returns: a name and a non-empty run of digits. *)
Lemma parse_function_groups c l :
  Cipher.parse_function c = Ok l ->
  exists name x u,
    l = [name; String x u] /\ Re.digit x = true /\ Re.all_in Re.digit u.
Proof.
  unfold Cipher.parse_function, Helpers.regex_search_groups.
  destruct (Re.search Cipher.call_pattern c) as [m|] eqn:Hm; [|done].
  intros [= <-].
  apply search_sound in Hm as (pre & w & ms & Hc & Hstart & Hw & Hsp).
  unfold Cipher.call_pattern in Hw. cbn [app Re.lit Re.Parse] in Hw.
  destruct Hw as (x1 & u1 & w1 & -> & _ & _ & x2 & w2 & -> & _
                  & x3 & u3 & w3 & -> & _ & _ & x4 & w4 & -> & _
                  & x5 & w5 & -> & _ & x6 & w6 & -> & _
                  & x7 & u7 & w7 & -> & Hx7 & Hu7 & x8 & w8 & -> & _ & -> & ->).
  unfold Re.groups. rewrite Hsp. cbn [rev app Re.pair_up fmap list_fmap fst snd].
  eexists _, x7, u7. split; [|done]. do 2 f_equal.
  rewrite !str_app_cons, str_app_assoc, <- str_app_cons.
  apply between_app.
Qed.

End CallFacts.

(** * The matcher finds whatever the pattern describes *)

Section MatcherComplete.
Context {R : Type} (c : Re.cclass) (k : string -> option R).
Implicit Types (s u : string).

Lemma greedy_fallback s : is_Some (k s) -> is_Some (Re.greedy c k s).
Proof.
  intros Hk. destruct s as [|x s]; simpl; [done|].
  destruct (c x); [|done]. by destruct (Re.greedy c k s).
Qed.

Lemma greedy_complete u s :
  Re.all_in c u -> is_Some (k s) -> is_Some (Re.greedy c k (u +:+ s)).
Proof.
  intros Hu Hk. induction u as [|x u IH]; [by apply greedy_fallback|].
  destruct Hu as [Hx Hu]. rewrite str_app_cons. simpl. rewrite Hx.
  destruct (IH Hu) as [r ->]. eauto.
Qed.

Lemma lazy_complete u s :
  Re.all_in c u -> is_Some (k s) -> is_Some (Re.lazy c k (u +:+ s)).
Proof.
  intros Hu Hk. induction u as [|x u IH].
  - rewrite str_app_nil_l. destruct Hk as [r Hr].
    destruct s; simpl; rewrite Hr; eauto.
  - destruct Hu as [Hx Hu]. rewrite str_app_cons. simpl.
    destruct (k (String x (u +:+ s))); [eauto|]. rewrite Hx. by apply IH.
Qed.

End MatcherComplete.

Lemma run_complete r : forall w rest marks,
  Re.Lang r w -> is_Some (Re.run r marks (w +:+ rest)).
Proof.
  induction r as [|t r IH]; intros w rest marks.
  - intros ->. simpl. eauto.
  - destruct t as [c|c|c|c|c| |]; cbn [Re.Lang Re.run].
    + intros (x & w' & -> & Hx & Hw). rewrite str_app_cons. simpl.
      rewrite Hx. by apply IH.
    + intros [Hw|(x & w' & -> & Hx & Hw)]; unfold Re.opt.
      * destruct (Re.one c _ _); [eauto|]. by apply IH.
      * rewrite str_app_cons. simpl. rewrite Hx.
        destruct (IH w' rest marks Hw) as [r' ->]. eauto.
    + intros (u & w' & -> & Hu & Hw). rewrite str_app_assoc.
      apply greedy_complete; [done|]. by apply IH.
    + intros (x & u & w' & -> & Hx & Hu & Hw).
      rewrite str_app_cons, str_app_assoc. simpl. rewrite Hx.
      apply greedy_complete; [done|]. by apply IH.
    + intros (u & w' & -> & Hu & Hw). rewrite str_app_assoc.
      apply lazy_complete; [done|]. by apply IH.
    + apply IH.
    + apply IH.
Qed.

Lemma search_complete r s : Re.occurs r s -> is_Some (Re.search r s).
Proof.
  intros (pre & w & post & -> & Hw).
  pose proof (run_complete r w post [] Hw) as [[e ms] Hrun].
  induction pre as [|x pre IH].
  - rewrite str_app_nil_l. destruct (w +:+ post); simpl; rewrite Hrun; eauto.
  - rewrite str_app_cons. simpl.
    destruct (Re.run r [] (String x _)) as [[e' ms']|]; [eauto|done].
Qed.

(** Searching decides whether the pattern occurs in the text. *)
Lemma search_occurs_iff r s : is_Some (Re.search r s) <-> Re.occurs r s.
Proof.
  split; [|apply search_complete].
  intros [m Hm]. by eapply search_occurs.
Qed.

Lemma search_none_absent r s : Re.search r s = None -> ~ Re.occurs r s.
Proof. intros Hnone [m Hm]%search_complete. congruence. Qed.

Lemma Lang_lit_intro t r w : Re.Lang r w -> Re.Lang (Re.lit t ++ r) (t +:+ w).
Proof.
  intros Hw. induction t as [|c t IH]; [done|].
  cbn [Re.lit app Re.Lang]. exists c, (t +:+ w).
  split; [done|]. split; [apply Ascii.eqb_refl|done].
Qed.

(** The entry-point marker is what the pattern of
    [get_initial_function_name] looks for. *)
Lemma marker_initial_function_pattern js :
  Spec.entry_marker_present js -> Re.occurs Cipher.initial_function_pattern js.
Proof.
  intros (pre & ws & name & post & -> & Hws & Hne & Hname).
  exists pre, ((Cipher.dq +:+ "signature" +:+ Cipher.dq +:+ ",")
               +:+ ws +:+ name +:+ "("), post.
  split; [by rewrite !str_app_assoc|].
  unfold Cipher.initial_function_pattern. apply Lang_lit_intro.
  cbn [app Re.lit Re.Lang].
  assert (exists x u w', name +:+ "(" = String x (u +:+ w')
            /\ Cipher.name_char x = true /\ Re.all_in Cipher.name_char u
            /\ exists y w'', w' = String y w'' /\ Re.chr "(" y = true /\ w'' = "")
    as Hgroup.
  { destruct name as [|x u]; [done|]. destruct Hname as [Hx Hu].
    exists x, u, "(". rewrite str_app_cons. eauto 10. }
  destruct Hws as [->|(c & -> & Hc)].
  - left. by rewrite str_app_nil_l.
  - right. exists c, (name +:+ "("). by rewrite str_app_cons, str_app_nil_l.
Qed.

Lemma entry_marker_iff js :
  Spec.entry_marker_present js <-> Re.occurs Cipher.initial_function_pattern js.
Proof.
  split; [apply marker_initial_function_pattern|apply initial_function_pattern_marker].
Qed.

(** * The decoding loop on an empty signature *)

Section EmptySignature.
Context {A : Type}.
Implicit Types (b : Z).

Lemma reverse_on_empty b : Cipher.reverse (@nil A) b = [].
Proof. reflexivity. Qed.

Lemma splice_on_empty b : Cipher.splice (@nil A) b = [].
Proof.
  unfold Cipher.splice, Py.slice_to, Py.slice_from.
  by rewrite take_nil, drop_nil.
Qed.

Lemma swap_on_empty b : Cipher.swap (@nil A) b = Err ZeroDivisionError.
Proof. reflexivity. Qed.

End EmptySignature.

Section Loop.
Context (tmap : gmap string Cipher.transform).
Implicit Types (c call : string) (tplan before after : list string)
  (sig : list ascii).

(** A plan entry that calls a transform applies it to the signature and to
    the integer that its argument stands for. *)
Lemma apply_step_called sig c fn :
  Spec.called tmap c = Some fn ->
  exists b, Cipher.apply_step tmap sig c = Cipher.call fn sig b.
Proof.
  unfold Spec.called, Cipher.apply_step.
  destruct (Cipher.parse_function c) as [l|e]; [|done].
  destruct l as [|name [|arg [|? ?]]]; try done.
  bind_step. destruct (tmap !! name) as [fn'|]; [|done].
  destruct (Py.int arg) as [b|]; [|done].
  intros [= <-]. bind_step. by exists b.
Qed.

Lemma apply_step_empty c :
  Spec.resolves tmap c = true ->
  Cipher.apply_step tmap [] c
  = if Spec.calls_swap tmap c then Err ZeroDivisionError else Ok [].
Proof.
  unfold Spec.resolves, Spec.calls_swap.
  destruct (Spec.called tmap c) as [fn|] eqn:Hfn; [|done]. intros _.
  destruct (apply_step_called [] c fn Hfn) as [b ->].
  destruct fn; cbn [Cipher.call];
    by rewrite ?reverse_on_empty, ?splice_on_empty, ?swap_on_empty.
Qed.

Lemma calls_swap_resolves c :
  Spec.calls_swap tmap c = true -> Spec.resolves tmap c = true.
Proof.
  unfold Spec.resolves, Spec.calls_swap. by destruct (Spec.called tmap c).
Qed.

Lemma for_each_empty tplan :
  forallb (Spec.resolves tmap) tplan = true ->
  Py.for_each (Cipher.apply_step tmap) [] tplan
  = if existsb (Spec.calls_swap tmap) tplan then Err ZeroDivisionError else Ok [].
Proof.
  induction tplan as [|c tplan IH]; [done|].
  cbn [forallb existsb Py.for_each].
  intros [Hc Hrest]%andb_true_iff.
  rewrite (apply_step_empty c Hc).
  destruct (Spec.calls_swap tmap c); bind_step; [done|].
  by apply IH.
Qed.

(** On the empty signature the loop raises [ZeroDivisionError] at the first
    call of [swap] that it reaches. *)
Lemma for_each_empty_reaches_swap before call after :
  forallb (Spec.resolves tmap) before = true ->
  Spec.calls_swap tmap call = true ->
  Py.for_each (Cipher.apply_step tmap) [] (before ++ call :: after)
  = Err ZeroDivisionError.
Proof.
  intros Hbefore Hcall.
  induction before as [|c before IH]; cbn [app Py.for_each].
  - rewrite (apply_step_empty call (calls_swap_resolves call Hcall)).
    by rewrite Hcall.
  - cbn [forallb] in Hbefore. apply andb_true_iff in Hbefore as [Hc Hrest].
    rewrite (apply_step_empty c Hc).
    destruct (Spec.calls_swap tmap c); bind_step; [done|by apply IH].
Qed.

End Loop.

(** [get_signature] is its preparation followed by its loop. *)
Lemma get_signature_unfold js ciphered :
  Cipher.get_signature js ciphered
  = (pt ← Spec.plan_and_table js;
     signature ← Py.for_each (Cipher.apply_step pt.2) (Py.chars ciphered) pt.1;
     Ok (Py.join signature)).
Proof.
  unfold Cipher.get_signature, Spec.plan_and_table.
  destruct (Cipher.get_transform_plan js) as [tplan|]; [|done]. bind_step.
  destruct (Py.getitem tplan 0) as [first|]; [|done]. bind_step.
  destruct (match Py.split "." None first with
            | [var; _] => Ok var | _ => Err ValueError end) as [var|];
    [|done]. bind_step.
  by destruct (Cipher.get_transform_map js var).
Qed.

(** * The properties of the specification *)

(** C1, as the code has it: [splice] does not drop the first [b] elements.  On
    [[1, 2, 3, 4]] and [2] it returns [[1, 2]], the very prefix that the
    JavaScript [a.splice(0, b)] removes, where cropping the front gives
    [[3, 4]]. *)
Theorem splice_1234_keeps_the_prefix :
  Cipher.splice [1; 2; 3; 4] 2 = [1; 2]
  /\ Cipher.splice [1; 2; 3; 4] 2 <> [3; 4].
Proof. split; [reflexivity|discriminate]. Qed.

(** C2, as the code has it: on the script [sample_js] (entry point [EE], plan
    [DE.AJ(a,0);DE.VR(a,2)], container [DE] with a reversal [AJ] and a
    crop-front [VR]) and the ciphered text [abcdef], [get_signature] returns
    [feba] and not [dcba]: the reversal gives [fedcba], and [splice] then keeps
    [fe] and [ba]. *)
Theorem get_signature_sample_js :
  Cipher.get_initial_function_name sample_js = Ok "EE"
  /\ Cipher.get_transform_plan sample_js = Ok ["DE.AJ(a,0)"; "DE.VR(a,2)"]
  /\ Cipher.get_transform_map sample_js "DE"
     = Ok (<["VR" := Cipher.fn_splice]> (<["AJ" := Cipher.fn_reverse]> ∅))
  /\ Cipher.get_signature sample_js "abcdef" = Ok "feba"
  /\ Cipher.get_signature sample_js "abcdef" <> Ok "dcba".
Proof. repeat split; vm_compute; (reflexivity || discriminate). Qed.

(** C3, as the code has it: when [b % len(arr)] is zero, [swap] does not hand
    the input back but puts a second copy of the head in front of it; the
    other offsets swap as described. *)
Theorem swap_1234_offset_zero :
  Cipher.swap [1; 2; 3; 4] 0 = Ok [1; 1; 2; 3; 4]
  /\ Cipher.swap [1; 2; 3; 4] 4 = Ok [1; 1; 2; 3; 4]
  /\ Cipher.swap [1; 2; 3; 4] 2 = Ok [3; 2; 1; 4].
Proof. repeat split; reflexivity. Qed.

(** C4, amended: for every non-empty sequence [a] and non-negative integer [b]
    with [b % len(a)] different from zero, applying [swap] twice with [b]
    gives [a] back. *)
Theorem swap_twice_restores {A : Type} (a : list A) (b : Z) :
  a <> [] ->
  0 <= b ->
  b mod Z.of_nat (length a) <> 0 ->
  Cipher.swap a b ≫= (fun a' => Cipher.swap a' b) = Ok a.
Proof.
  intros Ha _ Hr. destruct a as [|x l]; [done|].
  by apply swap_twice_nonzero.
Qed.

Lemma swap_twice_restores_witness :
  [1; 2; 3; 4] <> [] /\ 0 <= 2 /\ 2 mod Z.of_nat (length [1; 2; 3; 4]) <> 0
  /\ Cipher.swap [1; 2; 3; 4] 2 ≫= (fun a' => Cipher.swap a' 2) = Ok [1; 2; 3; 4].
Proof.
  assert ([1; 2; 3; 4] <> []) as H1 by discriminate.
  assert (0 <= 2) as H2 by lia.
  assert (2 mod Z.of_nat (length [1; 2; 3; 4]) <> 0) as H3 by (vm_compute; discriminate).
  exact (conj H1 (conj H2 (conj H3
           (swap_twice_restores [1; 2; 3; 4] 2 H1 H2 H3)))).
Defined.

(** C4 as stated fails twice over: on the empty sequence [swap] raises, and
    with an offset of zero each application adds one more copy of the head. *)
Lemma swap_twice_not_identity :
  (Cipher.swap (@nil Z) 0 ≫= (fun a' => Cipher.swap a' 0) = Err ZeroDivisionError
   /\ Cipher.swap (@nil Z) 0 ≫= (fun a' => Cipher.swap a' 0) <> Ok [])
  /\ (Cipher.swap [1; 2; 3; 4] 0 ≫= (fun a' => Cipher.swap a' 0)
      = Ok [1; 1; 1; 2; 3; 4]
      /\ Cipher.swap [1; 2; 3; 4] 0 ≫= (fun a' => Cipher.swap a' 0)
         <> Ok [1; 2; 3; 4]).
Proof. repeat split; (reflexivity || discriminate). Qed.

(** C5: [reverse] returns its input with the order of the elements inverted,
    whatever its second argument, and applying it twice gives the input
    back. *)
Theorem reverse_reverse {A : Type} (a : list A) (b b' : Z) :
  Cipher.reverse a b = reverse a
  /\ Cipher.reverse (Cipher.reverse a b) b' = a.
Proof.
  split; [apply reverse_is_reverse|].
  rewrite !reverse_is_reverse. apply reverse_involutive.
Qed.

(** C6: [splice] with argument zero hands its input back, so cropping zero
    elements after any crop changes nothing. *)
Theorem splice_zero_after_splice {A : Type} (a : list A) (b : Z) :
  Cipher.splice a 0 = a
  /\ Cipher.splice (Cipher.splice a b) 0 = Cipher.splice a b.
Proof. split; apply splice_zero. Qed.

(** C7: on a script without the entry-point marker,
    [get_initial_function_name] fails with [PatternNotFound "entry_point"],
    and with nothing else. *)
Theorem missing_marker_fails (js : string) :
  ~ Spec.entry_marker_present js ->
  Cipher.get_initial_function_name js = Err (PatternNotFound "entry_point").
Proof.
  intros Hno. apply regex_search_group_absent.
  by rewrite <- entry_marker_iff.
Qed.

Lemma missing_marker_fails_witness :
  ~ Spec.entry_marker_present "var a=1;"
  /\ Cipher.get_initial_function_name "var a=1;" = Err (PatternNotFound "entry_point").
Proof.
  assert (~ Spec.entry_marker_present "var a=1;") as Hno.
  { rewrite entry_marker_iff. apply search_none_absent. vm_compute. reflexivity. }
  exact (conj Hno (missing_marker_fails "var a=1;" Hno)).
Defined.

(** C8: a function text in which none of the three shapes (reversal, splice
    from the front, swap) occurs makes [map_functions] fail with
    [UnknownOperationShape] carrying that text; no transform is returned. *)
Theorem unknown_shape_fails (js_func : string) :
  ~ Re.occurs Cipher.reverse_pattern js_func ->
  ~ Re.occurs Cipher.splice_pattern js_func ->
  ~ Re.occurs Cipher.swap_pattern js_func ->
  Cipher.map_functions js_func = Err (UnknownOperationShape js_func).
Proof.
  intros Hrev Hspl Hswp. unfold Cipher.map_functions, Cipher.mapper.
  cbn [Cipher.first_match].
  by rewrite !search_absent.
Qed.

Lemma unknown_shape_fails_witness :
  ~ Re.occurs Cipher.reverse_pattern "function(a){a.sort()}"
  /\ ~ Re.occurs Cipher.splice_pattern "function(a){a.sort()}"
  /\ ~ Re.occurs Cipher.swap_pattern "function(a){a.sort()}"
  /\ Cipher.map_functions "function(a){a.sort()}"
     = Err (UnknownOperationShape "function(a){a.sort()}").
Proof.
  assert (~ Re.occurs Cipher.reverse_pattern "function(a){a.sort()}") as H1
    by (apply search_none_absent; vm_compute; reflexivity).
  assert (~ Re.occurs Cipher.splice_pattern "function(a){a.sort()}") as H2
    by (apply search_none_absent; vm_compute; reflexivity).
  assert (~ Re.occurs Cipher.swap_pattern "function(a){a.sort()}") as H3
    by (apply search_none_absent; vm_compute; reflexivity).
  exact (conj H1 (conj H2 (conj H3
           (unknown_shape_fails "function(a){a.sort()}" H1 H2 H3)))).
Defined.

(** C9, amended: on every script [get_transform_plan] either fails with
    [PatternNotFound] (the entry point or the body of the signature function
    is not found) or returns a list with at least one element.  Nothing more
    is checked: the elements are the pieces of the captured statement. *)
Theorem transform_plan_never_empty (js : string) :
  Cipher.get_transform_plan js = Err (PatternNotFound "entry_point")
  \/ Cipher.get_transform_plan js = Err (PatternNotFound "transform_plan")
  \/ exists plan, Cipher.get_transform_plan js = Ok plan /\ plan <> [].
Proof.
  unfold Cipher.get_transform_plan, Cipher.get_initial_function_name.
  destruct (regex_search_group_cases (PatternNotFound "entry_point")
              Cipher.initial_function_pattern js
              parens_initial_function_pattern) as [->|[name ->]]; [by left|].
  bind_step.
  destruct (regex_search_group_cases (PatternNotFound "transform_plan")
              (Cipher.transform_plan_pattern name) js
              (parens_transform_plan_pattern name)) as [->|[plan ->]];
    [by right; left|].
  bind_step. right; right. eexists. split; [done|]. apply split_nonempty.
Qed.

(** C9 as stated fails: on [empty_plan_js] the text captured for the plan is
    empty, and it is not treated as a failure; [str.split] turns it into the
    one-element list holding the empty text, which is returned and holds no
    call expression. *)
Lemma empty_statement_is_returned :
  Helpers.regex_search_group (PatternNotFound "transform_plan")
    (Cipher.transform_plan_pattern "EE") empty_plan_js 1 = Ok ""
  /\ Cipher.get_transform_plan empty_plan_js = Ok [""]
  /\ existsb Spec.is_call [""] = false.
Proof. repeat split; vm_compute; reflexivity. Qed.

(** C10, amended: [swap] raises [ZeroDivisionError] on the empty sequence,
    whatever the integer, and this is none of the four errors of the
    specification; [get_signature] on an empty ciphered signature raises it
    when the plan holds a call of a function that the table binds to [swap]
    and every entry before that call parses, names a function of the table
    and carries an argument that [int] accepts. *)
Theorem swap_empty_division_by_zero :
  (forall (A : Type) (b : Z), Cipher.swap (@nil A) b = Err ZeroDivisionError)
  /\ Spec.in_taxonomy ZeroDivisionError = false
  /\ (forall js before call after tmap,
        Spec.plan_and_table js = Ok (before ++ call :: after, tmap) ->
        forallb (Spec.resolves tmap) before = true ->
        Spec.calls_swap tmap call = true ->
        Cipher.get_signature js "" = Err ZeroDivisionError).
Proof.
  split; [intros A b; apply swap_on_empty|]. split; [reflexivity|].
  intros js before call after tmap Hpt Hbefore Hcall.
  rewrite get_signature_unfold, Hpt. bind_step. cbn [fst snd].
  change (Py.chars "") with (@nil ascii).
  by rewrite for_each_empty_reaches_swap.
Qed.

Lemma swap_empty_division_by_zero_witness :
  Spec.plan_and_table sample_js_swap
  = Ok (["DE.AJ(a,0)"] ++ "DE.kT(a,3)" :: [], sample_table_swap)
  /\ forallb (Spec.resolves sample_table_swap) ["DE.AJ(a,0)"] = true
  /\ Spec.calls_swap sample_table_swap "DE.kT(a,3)" = true
  /\ Cipher.get_signature sample_js_swap "" = Err ZeroDivisionError.
Proof.
  assert (Spec.plan_and_table sample_js_swap
          = Ok (["DE.AJ(a,0)"] ++ "DE.kT(a,3)" :: [], sample_table_swap)) as H1
    by (vm_compute; reflexivity).
  assert (forallb (Spec.resolves sample_table_swap) ["DE.AJ(a,0)"] = true) as H2
    by (vm_compute; reflexivity).
  assert (Spec.calls_swap sample_table_swap "DE.kT(a,3)" = true) as H3
    by (vm_compute; reflexivity).
  exact (conj H1 (conj H2 (conj H3
           (proj2 (proj2 swap_empty_division_by_zero)
              sample_js_swap _ _ _ _ H1 H2 H3)))).
Defined.

(** C10 as stated fails: the plan of [sample_js_unknown] holds a call of
    [swap], yet on the empty ciphered signature [get_signature] never reaches
    it; the entry before it names a function that the table lacks, and the
    lookup fails first. *)
Lemma swap_call_not_reached :
  Spec.plan_and_table sample_js_unknown
  = Ok (["DE.ZZ(a,1)"; "DE.kT(a,3)"], sample_table_swap)
  /\ existsb (Spec.calls_swap sample_table_swap) ["DE.ZZ(a,1)"; "DE.kT(a,3)"]
     = true
  /\ Cipher.get_signature sample_js_unknown "" = Err (UnknownOperationName "ZZ")
  /\ Cipher.get_signature sample_js_unknown "" <> Err ZeroDivisionError.
Proof. repeat split; vm_compute; (reflexivity || discriminate). Qed.

(** * Further properties of the transforms *)

Section TransformShape.
Context {A : Type}.
Implicit Types (a l : list A) (x y : A) (b : Z).

(** A non-empty input and an integer: the offset of [swap] as a natural
    number below the length. *)
Lemma swap_offset x l b :
  exists r : nat,
    b mod Z.of_nat (length (x :: l)) = Z.of_nat r /\ (r < length (x :: l))%nat.
Proof.
  pose proof (offset_in_range l b) as Hb. simpl length.
  exists (Z.to_nat (b mod Z.of_nat (S (length l)))). lia.
Qed.

Lemma swap_nonempty_ok x l b : exists a', Cipher.swap (x :: l) b = Ok a'.
Proof.
  destruct (swap_offset x l b) as ([|k] & Hr & Hlt); simpl length in *.
  - rewrite (swap_zero x l b) by lia. eauto.
  - destruct (lookup_lt_is_Some_2 l k) as [y Hy]; [lia|].
    rewrite (swap_nonzero x y l b k) by done. eauto.
Qed.

Lemma exchange_permutation x y l (k : nat) :
  l !! k = Some y -> y :: <[k := x]> l ≡ₚ x :: l.
Proof.
  intros Hy. pose proof (lookup_lt_Some _ _ _ Hy) as Hk.
  rewrite insert_take_drop by done.
  rewrite <- (take_drop_middle l k y Hy) at 3.
  rewrite <- !Permutation_middle. apply perm_swap.
Qed.

End TransformShape.

(** X1: [reverse] keeps the elements and their number, whatever its second
    argument: the result is a permutation of the input, of the same length. *)
Theorem reverse_permutes {A : Type} (a : list A) (b : Z) :
  Cipher.reverse a b ≡ₚ a /\ length (Cipher.reverse a b) = length a.
Proof.
  rewrite reverse_is_reverse. split; [apply reverse_Permutation|apply length_reverse].
Qed.

(** X2: the element at index [i] of [reverse(arr, b)] is the element at index
    [len(arr) - 1 - i] of [arr]. *)
Theorem reverse_index_mirror {A : Type} (a : list A) (b : Z) (i : nat) :
  (i < length a)%nat ->
  Cipher.reverse a b !! i = a !! (length a - S i)%nat.
Proof. apply reverse_lookup_mirror. Qed.

Lemma reverse_index_mirror_witness :
  (1 < length [10; 20; 30])%nat
  /\ Cipher.reverse [10; 20; 30] 7 !! 1%nat = [10; 20; 30] !! (length [10; 20; 30] - 2)%nat.
Proof.
  assert (1 < length [10; 20; 30])%nat as H by (simpl; lia).
  exact (conj H (reverse_index_mirror [10; 20; 30] 7 1 H)).
Defined.

(** X3: for a non-negative [b], [splice(arr, b)] is the first [b] elements of
    [arr] followed by the elements from index [2 * b] on; it is a subsequence
    of [arr], and it is [b] elements shorter when [2 * b <= len(arr)]. *)
Theorem splice_nonneg_subsequence {A : Type} (a : list A) (b : Z) :
  0 <= b ->
  Cipher.splice a b = take (Z.to_nat b) a ++ drop (2 * Z.to_nat b) a
  /\ Cipher.splice a b `sublist_of` a
  /\ (2 * b <= Z.of_nat (length a) ->
      Z.of_nat (length (Cipher.splice a b)) = Z.of_nat (length a) - b).
Proof.
  intros Hb. rewrite splice_nonneg by done. split; [done|]. split.
  - rewrite <- (take_drop (Z.to_nat b) a) at 3.
    apply sublist_app; [done|].
    replace (2 * Z.to_nat b)%nat with (Z.to_nat b + Z.to_nat b)%nat by lia.
    rewrite <- drop_drop. apply sublist_drop.
  - intros Hlen. rewrite length_app, length_take, length_drop. lia.
Qed.

Lemma splice_nonneg_subsequence_witness :
  0 <= 1
  /\ Cipher.splice [1; 2; 3; 4; 5] 1
     = take (Z.to_nat 1) [1; 2; 3; 4; 5] ++ drop (2 * Z.to_nat 1) [1; 2; 3; 4; 5]
  /\ Cipher.splice [1; 2; 3; 4; 5] 1 `sublist_of` [1; 2; 3; 4; 5]
  /\ (2 * 1 <= Z.of_nat (length [1; 2; 3; 4; 5]) ->
      Z.of_nat (length (Cipher.splice [1; 2; 3; 4; 5] 1))
      = Z.of_nat (length [1; 2; 3; 4; 5]) - 1).
Proof.
  assert (0 <= 1) as H by lia.
  exact (conj H (splice_nonneg_subsequence [1; 2; 3; 4; 5] 1 H)).
Defined.

(** X4: when [b] is at least the length of [arr], [splice(arr, b)] returns
    [arr] unchanged: nothing is cropped. *)
Theorem splice_beyond_length {A : Type} (a : list A) (b : Z) :
  Z.of_nat (length a) <= b ->
  Cipher.splice a b = a.
Proof.
  intros Hb. rewrite splice_nonneg by lia.
  rewrite take_ge, drop_ge by lia. apply app_nil_r.
Qed.

Lemma splice_beyond_length_witness :
  Z.of_nat (length [1; 2; 3]) <= 5 /\ Cipher.splice [1; 2; 3] 5 = [1; 2; 3].
Proof.
  assert (Z.of_nat (length [1; 2; 3]) <= 5) as H by (simpl; lia).
  exact (conj H (splice_beyond_length [1; 2; 3] 5 H)).
Defined.

Lemma swap_error_only_on_empty {A : Type} (a : list A) (b : Z) (e : error) :
  Cipher.swap a b = Err e -> a = [] /\ e = ZeroDivisionError.
Proof.
  destruct a as [|x l].
  - rewrite swap_on_empty. by intros [= <-].
  - destruct (swap_nonempty_ok x l b) as [a' ->]. discriminate.
Qed.

(** X5: [swap] raises exactly on the empty sequence, and then it raises
    [ZeroDivisionError]; on a non-empty sequence it returns a list for every
    integer [b], negative ones included. *)
Theorem swap_raises_iff_empty {A : Type} (a : list A) (b : Z) (e : error) :
  Cipher.swap a b = Err e <-> a = [] /\ e = ZeroDivisionError.
Proof.
  split.
  - destruct a as [|x l].
    + rewrite swap_on_empty. by intros [= <-].
    + destruct (swap_nonempty_ok x l b) as [a' ->]. discriminate.
  - intros [-> ->]. apply swap_on_empty.
Qed.

(** X6: on a non-empty sequence with [r = b % len(arr)] different from zero,
    [swap] returns the input with the elements at indices [0] and [r]
    exchanged: the result is a permutation of the input of the same length,
    and every other index keeps its element. *)
Theorem swap_exchanges {A : Type} (a : list A) (b : Z) :
  a <> [] ->
  b mod Z.of_nat (length a) <> 0 ->
  exists a',
    Cipher.swap a b = Ok a'
    /\ a' ≡ₚ a
    /\ length a' = length a
    /\ a' !! 0%nat = a !! Z.to_nat (b mod Z.of_nat (length a))
    /\ a' !! Z.to_nat (b mod Z.of_nat (length a)) = a !! 0%nat
    /\ forall i : nat,
         i <> 0%nat -> i <> Z.to_nat (b mod Z.of_nat (length a)) ->
         a' !! i = a !! i.
Proof.
  intros Ha Hr. destruct a as [|x l]; [done|].
  destruct (swap_offset x l b) as ([|k] & Hk & Hlt); [lia|].
  rewrite Hk, Nat2Z.id. simpl length in *.
  destruct (lookup_lt_is_Some_2 l k) as [y Hy]; [lia|].
  exists (y :: <[k := x]> l). split; [by apply swap_nonzero|].
  split; [by apply exchange_permutation|].
  split; [simpl; by rewrite length_insert|].
  split; [done|]. split; [simpl; apply list_lookup_insert_eq; lia|].
  intros [|i] H0 Hi; [done|]. simpl.
  apply list_lookup_insert_ne. lia.
Qed.

Lemma swap_exchanges_witness :
  [1; 2; 3; 4] <> [] /\ 6 mod Z.of_nat (length [1; 2; 3; 4]) <> 0
  /\ exists a',
       Cipher.swap [1; 2; 3; 4] 6 = Ok a'
       /\ a' ≡ₚ [1; 2; 3; 4]
       /\ length a' = length [1; 2; 3; 4]
       /\ a' !! 0%nat = [1; 2; 3; 4] !! Z.to_nat (6 mod Z.of_nat (length [1; 2; 3; 4]))
       /\ a' !! Z.to_nat (6 mod Z.of_nat (length [1; 2; 3; 4])) = [1; 2; 3; 4] !! 0%nat
       /\ forall i : nat,
            i <> 0%nat -> i <> Z.to_nat (6 mod Z.of_nat (length [1; 2; 3; 4])) ->
            a' !! i = [1; 2; 3; 4] !! i.
Proof.
  assert ([1; 2; 3; 4] <> []) as H1 by discriminate.
  assert (6 mod Z.of_nat (length [1; 2; 3; 4]) <> 0) as H2 by (vm_compute; discriminate).
  exact (conj H1 (conj H2 (swap_exchanges [1; 2; 3; 4] 6 H1 H2))).
Defined.

(** * Further properties of the extraction *)

Section CallShape.
Implicit Types (c name arg s u : string) (x : ascii).

Lemma digit_value_range x d : Py.digit_value x = Some d -> 0 <= d.
Proof.
  unfold Py.digit_value. cbv zeta.
  destruct (Z.leb_spec 48 (Z.of_N (N_of_ascii x))) as [H|?]; [|done].
  destruct (Z.of_N (N_of_ascii x) <=? 57); [|done].
  cbn [andb]. intros [= <-]. lia.
Qed.

Lemma int_go_nonneg s : forall acc n,
  0 <= acc -> Py.int_go acc s = Ok n -> 0 <= n.
Proof.
  induction s as [|x s IH]; intros acc n Hacc; simpl.
  - by intros [= <-].
  - destruct (Py.digit_value x) as [d|] eqn:Hd; [|done].
    apply IH. apply digit_value_range in Hd. lia.
Qed.

Lemma int_nonneg s n : Py.int s = Ok n -> 0 <= n.
Proof.
  unfold Py.int. destruct s as [|x u]; [done|].
  destruct (_ <=? _); [by apply int_go_nonneg|done].
Qed.

(** Both groups of a parsed call: a name of word characters and a run of
    digits, neither of them empty. *)
Lemma parse_function_shape c l :
  Cipher.parse_function c = Ok l ->
  exists x u y v,
    l = [String x u; String y v]
    /\ Re.word x = true /\ Re.all_in Re.word u
    /\ Re.digit y = true /\ Re.all_in Re.digit v.
Proof.
  unfold Cipher.parse_function, Helpers.regex_search_groups.
  destruct (Re.search Cipher.call_pattern c) as [m|] eqn:Hm; [|done].
  intros [= <-].
  apply search_sound in Hm as (pre & w & ms & Hc & Hstart & Hw & Hsp).
  unfold Cipher.call_pattern in Hw. cbn [app Re.lit Re.Parse] in Hw.
  destruct Hw as (x1 & u1 & w1 & -> & _ & _ & x2 & w2 & -> & _
                  & x3 & u3 & w3 & -> & Hx3 & Hu3 & x4 & w4 & -> & _
                  & x5 & w5 & -> & _ & x6 & w6 & -> & _
                  & x7 & u7 & w7 & -> & Hx7 & Hu7 & x8 & w8 & -> & _ & -> & ->).
  unfold Re.groups. rewrite Hsp. cbn [rev app Re.pair_up fmap list_fmap fst snd].
  exists x3, u3, x7, u7. split; [|done]. f_equal; [|f_equal].
  - rewrite !str_app_cons, str_app_assoc, <- str_app_cons. apply between_app.
  - rewrite !str_app_cons, str_app_assoc, <- str_app_cons. apply between_app.
Qed.

End CallShape.

(** X7: what [parse_function] returns is always a pair: a non-empty name made
    of word characters and a non-empty run of decimal digits.  On a run of
    at most 4300 digits [int] gives a non-negative integer; on a longer one it
    raises [ValueError]. *)
Theorem parse_function_returns_call (js_func : string) (l : list string) :
  Cipher.parse_function js_func = Ok l ->
  exists name argument,
    l = [name; argument]
    /\ name <> "" /\ Re.all_in Re.word name
    /\ argument <> "" /\ Re.all_in Re.digit argument
    /\ (Z.of_nat (String.length argument) <= Py.int_max_str_digits ->
        exists n, Py.int argument = Ok n /\ 0 <= n)
    /\ (Py.int_max_str_digits < Z.of_nat (String.length argument) ->
        Py.int argument = Err ValueError).
Proof.
  intros (x & u & y & v & -> & Hx & Hu & Hy & Hv)%parse_function_shape.
  exists (String x u), (String y v).
  do 5 (split; [done|]). split; [|apply int_long].
  intros Hlen. destruct (int_digits y v Hy Hv Hlen) as [n Hn].
  exists n. split; [done|]. by eapply int_nonneg.
Qed.

Lemma parse_function_returns_call_witness :
  Cipher.parse_function "DE.AJ(a,15)" = Ok ["AJ"; "15"]
  /\ exists name argument,
       ["AJ"; "15"] = [name; argument]
       /\ name <> "" /\ Re.all_in Re.word name
       /\ argument <> "" /\ Re.all_in Re.digit argument
       /\ (Z.of_nat (String.length argument) <= Py.int_max_str_digits ->
           exists n, Py.int argument = Ok n /\ 0 <= n)
       /\ (Py.int_max_str_digits < Z.of_nat (String.length argument) ->
           Py.int argument = Err ValueError).
Proof.
  assert (Cipher.parse_function "DE.AJ(a,15)" = Ok ["AJ"; "15"]) as H
    by (vm_compute; reflexivity).
  exact (conj H (parse_function_returns_call "DE.AJ(a,15)" ["AJ"; "15"] H)).
Defined.

(** X8: [parse_function] returns exactly on the texts in which a call of the
    shape [name.name(x,digits)] occurs somewhere; on every other text it
    fails. *)
Theorem parse_function_returns_iff (js_func : string) :
  (exists l, Cipher.parse_function js_func = Ok l)
  <-> Re.occurs Cipher.call_pattern js_func.
Proof.
  unfold Cipher.parse_function, Helpers.regex_search_groups.
  rewrite <- search_occurs_iff.
  destruct (Re.search Cipher.call_pattern js_func) as [m|]; split.
  - eauto.
  - eauto.
  - by intros [l ?].
  - by intros [m ?].
Qed.

(** X9: [map_functions] tries the shapes in the order reversal, splice, swap
    and the first one that occurs in the text decides: the result is
    [reverse] exactly when the reversal shape occurs, [splice] exactly when the
    splice shape occurs and the reversal shape does not, [swap] exactly when
    only the swap shape occurs. *)
Theorem map_functions_priority (js_func : string) :
  (Cipher.map_functions js_func = Ok Cipher.fn_reverse
   <-> Re.occurs Cipher.reverse_pattern js_func)
  /\ (Cipher.map_functions js_func = Ok Cipher.fn_splice
      <-> ~ Re.occurs Cipher.reverse_pattern js_func
          /\ Re.occurs Cipher.splice_pattern js_func)
  /\ (Cipher.map_functions js_func = Ok Cipher.fn_swap
      <-> ~ Re.occurs Cipher.reverse_pattern js_func
          /\ ~ Re.occurs Cipher.splice_pattern js_func
          /\ Re.occurs Cipher.swap_pattern js_func).
Proof.
  unfold Cipher.map_functions, Cipher.mapper. cbn [Cipher.first_match].
  rewrite <- !search_occurs_iff.
  destruct (Re.search Cipher.reverse_pattern js_func) as [m1|];
    destruct (Re.search Cipher.splice_pattern js_func) as [m2|];
    destruct (Re.search Cipher.swap_pattern js_func) as [m3|];
    repeat split; try done; intros;
    repeat match goal with
           | H : _ /\ _ |- _ => destruct H
           | H : ~ is_Some (Some _) |- _ => destruct H; eauto
           | H : is_Some None |- _ => by destruct H
           end;
    try discriminate; eauto using is_Some_None.
Qed.

(** The name that [get_initial_function_name] returns stands at an
    entry-point marker of the script. *)
Lemma initial_function_name_at_marker js name :
  Cipher.get_initial_function_name js = Ok name ->
  exists pre ws post, Spec.entry_marker_at js pre ws name post.
Proof.
  unfold Cipher.get_initial_function_name, Helpers.regex_search_group.
  destruct (Re.search Cipher.initial_function_pattern js) as [m|] eqn:Hm; [|done].
  apply search_sound in Hm as (pre & w & ms & -> & _ & Hw & Hsp).
  unfold Cipher.initial_function_pattern in Hw.
  apply Parse_lit in Hw as (w1 & -> & Hw). cbn [app Re.lit Re.Parse] in Hw.
  unfold Re.group, Re.groups. rewrite Hsp. clear Hsp.
  assert (forall v,
            (exists x u w', v = String x (u +:+ w')
               /\ Cipher.name_char x = true /\ Re.all_in Cipher.name_char u
               /\ exists y w'', w' = String y w'' /\ Re.chr "(" y = true
                    /\ w'' = "" /\ ms = [w' +:+ Re.m_end m; v +:+ Re.m_end m]) ->
            exists x u, v = String x u +:+ "("
               /\ Cipher.name_char x = true /\ Re.all_in Cipher.name_char u
               /\ Re.pair_up (rev ms)
                  = [((String x u +:+ "(") +:+ Re.m_end m, "(" +:+ Re.m_end m)])
    as Hgroup.
  { intros v (x & u & w' & -> & Hx & Hu & y & w'' & -> & ->%chr_true & -> & ->).
    exists x, u. split; [reflexivity|]. do 2 (split; [done|]). reflexivity. }
  destruct Hw as [Hv|(c & v & -> & Hc & Hv)];
    apply Hgroup in Hv as (x & u & -> & Hx & Hu & ->);
    cbn [fmap list_fmap lookup list_lookup fst snd];
    rewrite str_app_assoc, between_app; intros [= <-].
  - exists pre, "", (Re.m_end m).
    split; [|split; [by left|split; [done|by split]]].
    by rewrite str_app_nil_l, !str_app_assoc.
  - exists pre, (String c ""), (Re.m_end m).
    split; [|split; [right; by exists c|split; [done|by split]]].
    by rewrite !str_app_assoc, !str_app_cons, !str_app_assoc.
Qed.

(** X10: [get_initial_function_name] returns a name exactly on the scripts
    that hold the entry-point marker. *)
Theorem initial_function_name_iff_marker (js : string) :
  (exists name, Cipher.get_initial_function_name js = Ok name)
  <-> Spec.entry_marker_present js.
Proof.
  split.
  - intros [name (pre & ws & post & H)%initial_function_name_at_marker].
    by exists pre, ws, name, post.
  - intros [m Hm]%marker_initial_function_pattern%search_complete.
    destruct (search_group_1 _ _ _ parens_initial_function_pattern Hm) as [g Hg].
    exists g. unfold Cipher.get_initial_function_name, Helpers.regex_search_group.
    by rewrite Hm, Hg.
Qed.

(** X11: the name that [get_initial_function_name] returns is a non-empty run
    of letters, digits and [$] that stands in the script right after
    ["signature",] and at most one white-space character, and right before an
    opening parenthesis. *)
Theorem initial_function_name_shape (js name : string) :
  Cipher.get_initial_function_name js = Ok name ->
  name <> ""
  /\ Re.all_in Cipher.name_char name
  /\ exists pre ws post,
       js = pre +:+ (Cipher.dq +:+ "signature" +:+ Cipher.dq +:+ ",")
               +:+ ws +:+ name +:+ "(" +:+ post
       /\ (ws = "" \/ exists c, ws = String c "" /\ Re.space c = true).
Proof.
  intros (pre & ws & post & Hjs & Hws & Hne & Hall)%initial_function_name_at_marker.
  repeat split; try done. by exists pre, ws, post.
Qed.

Lemma initial_function_name_shape_witness :
  Cipher.get_initial_function_name sample_js = Ok "EE"
  /\ "EE" <> ""
  /\ Re.all_in Cipher.name_char "EE"
  /\ exists pre ws post,
       sample_js = pre +:+ (Cipher.dq +:+ "signature" +:+ Cipher.dq +:+ ",")
                       +:+ ws +:+ "EE" +:+ "(" +:+ post
       /\ (ws = "" \/ exists c, ws = String c "" /\ Re.space c = true).
Proof.
  assert (Cipher.get_initial_function_name sample_js = Ok "EE") as H
    by (vm_compute; reflexivity).
  exact (conj H (initial_function_name_shape sample_js "EE" H)).
Defined.

(** * Splitting *)

Section SplitFacts.
Implicit Types (s t cur sep : string) (c x : ascii) (P : Re.cclass).

Lemma str_app_nil_r s : s +:+ "" = s.
Proof. induction s as [|x s IH]; [done|]. by rewrite str_app_cons, IH. Qed.

Lemma all_in_app P s t : Re.all_in P s -> Re.all_in P t -> Re.all_in P (s +:+ t).
Proof.
  intros Hs Ht. induction s as [|x s IH]; [done|].
  destruct Hs as [Hx Hs]. rewrite str_app_cons. split; [done|by apply IH].
Qed.

Lemma all_in_rev_app P s : forall t,
  Re.all_in P s -> Re.all_in P t -> Re.all_in P (String.rev_app s t).
Proof.
  induction s as [|x s IH]; intros t Hs Ht; [done|].
  destruct Hs as [Hx Hs]. simpl. apply IH; [done|by split].
Qed.

Lemma all_in_rev P s : Re.all_in P s -> Re.all_in P (String.rev s).
Proof. intros Hs. by apply all_in_rev_app. Qed.

Lemma rev_app_append s : forall t, String.rev_app s t = String.rev s +:+ t.
Proof.
  unfold String.rev. induction s as [|x s IH]; intros t; [done|].
  simpl. rewrite (IH (String x "")), IH. by rewrite str_app_assoc.
Qed.

Lemma rev_cons x s : String.rev (String x s) = String.rev s +:+ String x "".
Proof. unfold String.rev at 1. simpl. apply rev_app_append. Qed.

(** The pieces of a split are made of characters of the text. *)
Lemma split_go_all_in P s : forall sep budget skip cur,
  Re.all_in P cur -> Re.all_in P s ->
  Forall (Re.all_in P) (Py.split_go sep budget skip cur s).
Proof.
  induction s as [|x s IH]; intros sep budget skip cur Hcur Hs;
    cbn [Py.split_go].
  - constructor; [by apply all_in_rev|constructor].
  - destruct Hs as [Hx Hs]. destruct skip; [|by apply IH].
    destruct (Py.may_split budget && String.prefix sep (String x s)).
    + constructor; [by apply all_in_rev|by apply IH].
    + apply IH; [by split|done].
Qed.

Lemma prefix_char c x s :
  String.prefix (String c "") (String x s) = bool_decide (c = x).
Proof.
  simpl. destruct (ascii_dec c x) as [->|Hne].
  - rewrite bool_decide_eq_true_2 by done. by destruct s.
  - by rewrite bool_decide_eq_false_2.
Qed.

Lemma free_of_cons c x s :
  c <> x -> Props.free_of c s -> Props.free_of c (String x s).
Proof.
  intros Hne Hs. split; [|done].
  apply negb_true_iff, Ascii.eqb_neq. done.
Qed.

(** Split on a one-character separator without limit: the separator occurs
    in no piece. *)
Lemma split_go_free c s : forall cur,
  Props.free_of c cur ->
  Forall (Props.free_of c) (Py.split_go (String c "") None 0 cur s).
Proof.
  induction s as [|x s IH]; intros cur Hcur; cbn [Py.split_go].
  - constructor; [by apply all_in_rev|constructor].
  - rewrite prefix_char. cbn [Py.may_split andb].
    destruct (bool_decide_reflect (c = x)) as [->|Hne].
    + constructor; [by apply all_in_rev|]. by apply IH.
    + apply IH. by apply free_of_cons.
Qed.

(** With no split left, the rest of the text goes to the current piece. *)
Lemma split_go_exhausted c s : forall cur,
  Py.split_go (String c "") (Some 0%nat) 0 cur s = [String.rev cur +:+ s].
Proof.
  induction s as [|x s IH]; intros cur; cbn [Py.split_go].
  - by rewrite str_app_nil_r.
  - cbn [Py.may_split andb]. rewrite IH, rev_cons, str_app_assoc. done.
Qed.

(** Split at most once on a one-character separator: either the separator
    does not occur and the text comes back whole, or the text is cut at its
    first occurrence. *)
Lemma split_go_once c s : forall cur,
  (Props.free_of c s
   /\ Py.split_go (String c "") (Some 1%nat) 0 cur s = [String.rev cur +:+ s])
  \/ (exists a b,
        s = a +:+ String c b /\ Props.free_of c a
        /\ Py.split_go (String c "") (Some 1%nat) 0 cur s
           = [String.rev cur +:+ a; b]).
Proof.
  induction s as [|x s IH]; intros cur; cbn [Py.split_go].
  - left. by rewrite str_app_nil_r.
  - rewrite prefix_char. cbn [Py.may_split andb].
    destruct (bool_decide_reflect (c = x)) as [->|Hne].
    + right. exists "", s. split; [done|]. split; [done|].
      cbn [fmap option_fmap option_map Nat.pred String.length Nat.sub].
      rewrite (split_go_exhausted x s ""). by rewrite str_app_nil_r.
    + destruct (IH (String x cur)) as [[Hfree ->]|(a & b & -> & Hfree & ->)].
      * left. split; [by apply free_of_cons|].
        by rewrite rev_cons, str_app_assoc.
      * right. exists (String x a), b. split; [done|].
        split; [by apply free_of_cons|].
        by rewrite rev_cons, str_app_assoc.
Qed.

Lemma split_once c s :
  (Props.free_of c s /\ Py.split (String c "") (Some 1%nat) s = [s])
  \/ (exists a b,
        s = a +:+ String c b /\ Props.free_of c a
        /\ Py.split (String c "") (Some 1%nat) s = [a; b]).
Proof. apply (split_go_once c s ""). Qed.

Lemma free_of_not_cut c a b s :
  Props.free_of c s -> s <> a +:+ String c b.
Proof.
  revert a. induction s as [|x s IH]; intros a Hs Heq.
  - by destruct a.
  - destruct Hs as [Hx Hs].
    destruct a as [|y a]; rewrite ?str_app_nil_l, ?str_app_cons in Heq;
      injection Heq as -> Heq.
    + by rewrite Ascii.eqb_refl in Hx.
    + by eapply IH.
Qed.

(** The cut at the first occurrence of [c] is unique. *)
Lemma first_cut_unique c a b a' b' :
  Props.free_of c a -> Props.free_of c a' ->
  a +:+ String c b = a' +:+ String c b' -> a = a' /\ b = b'.
Proof.
  revert a'. induction a as [|x a IH]; intros a' Ha Ha' Heq.
  - destruct a' as [|y a'].
    + rewrite !str_app_nil_l in Heq. by injection Heq as ->.
    + rewrite str_app_nil_l, str_app_cons in Heq. injection Heq as -> _.
      destruct Ha' as [Hy _]. by rewrite Ascii.eqb_refl in Hy.
  - destruct Ha as [Hx Ha].
    destruct a' as [|y a']; rewrite ?str_app_nil_l, ?str_app_cons in Heq;
      injection Heq as -> Heq.
    + by rewrite Ascii.eqb_refl in Hx.
    + destruct Ha' as [_ Ha']. destruct (IH a' Ha Ha' Heq) as [-> ->]. done.
Qed.

Lemma split_once_cut c a b :
  Props.free_of c a ->
  Py.split (String c "") (Some 1%nat) (a +:+ String c b) = [a; b].
Proof.
  intros Ha.
  destruct (split_once c (a +:+ String c b))
    as [[Hfree _]|(a' & b' & Heq & Ha' & ->)].
  - by destruct (free_of_not_cut c a b _ Hfree).
  - by destruct (first_cut_unique c a b a' b' Ha Ha' Heq) as [-> ->].
Qed.

End SplitFacts.

(** * Further properties of the extraction of plan and container *)

Lemma replace_free old new s :
  old <> new -> Props.free_of old (Py.replace old new s).
Proof.
  intros Hne. induction s as [|x s IH]; [done|]. simpl. split; [|done].
  apply negb_true_iff, Ascii.eqb_neq.
  destruct (Ascii.eqb_spec x old) as [->|Hx]; congruence.
Qed.

Lemma parens_transform_object_pattern var :
  Spec.parens (Cipher.transform_object_pattern var) = 2%nat.
Proof.
  unfold Cipher.transform_object_pattern.
  rewrite !parens_app, !parens_lit. reflexivity.
Qed.

Lemma all_in_dot_all s : Re.all_in Re.dot_all s.
Proof. induction s; by split. Qed.

Lemma container_defined_iff js var :
  Props.container_defined js var
  <-> Re.occurs (Cipher.transform_object_pattern var) js.
Proof.
  unfold Cipher.transform_object_pattern. split.
  - intros (pre & body & post & ->).
    exists pre, ("var " +:+ var +:+ "={" +:+ body +:+ "};"), post.
    split; [by rewrite !str_app_assoc|].
    do 3 apply Lang_lit_intro. cbn [app Re.lit Re.Lang].
    exists body, "};". split; [done|]. split; [apply all_in_dot_all|].
    exists "}"%char, ";". split; [done|]. split; [done|].
    by exists ";"%char, "".
  - intros (pre & w & post & -> & Hw).
    apply Lang_lit in Hw as (w1 & -> & Hw).
    apply Lang_lit in Hw as (w2 & -> & Hw).
    apply Lang_lit in Hw as (w3 & -> & Hw).
    cbn [app Re.lit Re.Lang] in Hw.
    destruct Hw as (body & w4 & -> & _ & x & w5 & -> & ->%chr_true
                    & y & w6 & -> & ->%chr_true & ->).
    exists pre, body, post. by rewrite !str_app_assoc.
Qed.

(** X12: no entry of the plan that [get_transform_plan] returns contains a
    semicolon. *)
Theorem transform_plan_entries_without_semicolon (js : string) (plan : list string) :
  Cipher.get_transform_plan js = Ok plan ->
  Forall (Props.free_of ";") plan.
Proof.
  unfold Cipher.get_transform_plan.
  destruct (Cipher.get_initial_function_name js) as [name|]; [|done]. bind_step.
  destruct (Helpers.regex_search_group _ _ js 1) as [text|]; [|done]. bind_step.
  intros [= <-]. by apply split_go_free.
Qed.

Lemma transform_plan_entries_without_semicolon_witness :
  Cipher.get_transform_plan sample_js = Ok ["DE.AJ(a,0)"; "DE.VR(a,2)"]
  /\ Forall (Props.free_of ";") ["DE.AJ(a,0)"; "DE.VR(a,2)"].
Proof.
  assert (Cipher.get_transform_plan sample_js = Ok ["DE.AJ(a,0)"; "DE.VR(a,2)"])
    as H by (vm_compute; reflexivity).
  exact (conj H (transform_plan_entries_without_semicolon sample_js _ H)).
Defined.

(** X13: [get_transform_object] returns a list exactly when the script
    defines the container, that is, holds [var NAME={ ... };]. *)
Theorem transform_object_iff_defined (js var : string) :
  (exists objs, Cipher.get_transform_object js var = Ok objs)
  <-> Props.container_defined js var.
Proof.
  rewrite container_defined_iff. unfold Cipher.get_transform_object. split.
  - intros [objs Hobjs]. apply search_occurs_iff.
    unfold Helpers.regex_search_group in Hobjs.
    by destruct (Re.search _ js).
  - intros [m Hm]%search_complete.
    destruct (search_group_1 _ _ _ (parens_transform_object_pattern var) Hm)
      as [g Hg].
    unfold Helpers.regex_search_group. rewrite Hm, Hg. bind_step. eauto.
Qed.

(** X14: the list that [get_transform_object] returns is never empty and
    none of its entries contains a newline. *)
Theorem transform_object_entries (js var : string) (objs : list string) :
  Cipher.get_transform_object js var = Ok objs ->
  objs <> [] /\ Forall (Props.free_of "010") objs.
Proof.
  unfold Cipher.get_transform_object.
  destruct (Helpers.regex_search_group _ _ js 1) as [body|]; [|done]. bind_step.
  intros [= <-]. split; [apply split_nonempty|].
  apply split_go_all_in; [done|]. by apply replace_free.
Qed.

Lemma transform_object_entries_witness :
  Cipher.get_transform_object sample_js "DE"
  = Ok ["AJ:function(a){a.reverse()}"; "VR:function(a,b){a.splice(0,b)}"]
  /\ ["AJ:function(a){a.reverse()}"; "VR:function(a,b){a.splice(0,b)}"] <> []
  /\ Forall (Props.free_of "010")
       ["AJ:function(a){a.reverse()}"; "VR:function(a,b){a.splice(0,b)}"].
Proof.
  assert (Cipher.get_transform_object sample_js "DE"
          = Ok ["AJ:function(a){a.reverse()}"; "VR:function(a,b){a.splice(0,b)}"])
    as H by (vm_compute; reflexivity).
  exact (conj H (transform_object_entries sample_js "DE" _ H)).
Defined.

(** * Further properties of the lookup table *)

Section Loops.
Context {S X : Type} (body : S -> X -> result S).

(** A loop over two lists in a row is the loop over the first followed by
    the loop over the second. *)
Lemma for_each_app (xs ys : list X) : forall s,
  Py.for_each body s (xs ++ ys)
  = Py.for_each body s xs ≫= (fun s' => Py.for_each body s' ys).
Proof.
  induction xs as [|x xs IH]; intros s; [done|].
  cbn [app Py.for_each]. destruct (body s x) as [s'|e]; bind_step; [apply IH|done].
Qed.

End Loops.

Section TableFacts.
Implicit Types (m table : gmap string Cipher.transform) (obj name function : string).

(** One turn of the loop of [get_transform_map] that does not raise: the
    entry is cut at its first colon, and the name before it is bound to what
    [map_functions] makes of the text after it. *)
Lemma add_transform_ok table obj table' :
  Cipher.add_transform table obj = Ok table' ->
  exists name function fn,
    obj = name +:+ ":" +:+ function /\ Props.free_of ":" name
    /\ Cipher.map_functions function = Ok fn
    /\ table' = <[name := fn]> table.
Proof.
  unfold Cipher.add_transform.
  destruct (split_once ":" obj) as [[_ ->]|(name & function & -> & Hfree & ->)];
    [done|].
  destruct (Cipher.map_functions function) as [fn|] eqn:Hfn; [|done].
  bind_step. intros [= <-]. by exists name, function, fn.
Qed.

Lemma add_transform_cut table name function :
  Props.free_of ":" name ->
  Cipher.add_transform table (name +:+ ":" +:+ function)
  = fn ← Cipher.map_functions function; Ok (<[name := fn]> table).
Proof.
  intros Hfree. unfold Cipher.add_transform.
  change (":" +:+ function) with (String ":" function).
  by rewrite (split_once_cut ":" name function Hfree).
Qed.

(** Every binding of the table built by the loop was there before or comes
    from an entry. *)
Lemma table_bindings_from_entries objs : forall m m' name fn,
  Py.for_each Cipher.add_transform m objs = Ok m' ->
  m' !! name = Some fn ->
  m !! name = Some fn
  \/ (Props.free_of ":" name
      /\ exists function,
           name +:+ ":" +:+ function ∈ objs
           /\ Cipher.map_functions function = Ok fn).
Proof.
  induction objs as [|obj objs IH]; intros m m' name fn; cbn [Py.for_each].
  - intros [= <-]. by left.
  - destruct (Cipher.add_transform m obj) as [m1|] eqn:Hadd; [|done]. bind_step.
    intros Hrest Hlook.
    apply add_transform_ok in Hadd as (name1 & function1 & fn1 & -> & Hfree & Hfn & ->).
    destruct (IH _ _ _ _ Hrest Hlook) as [Hm1|(Hfree' & function & Hin & Hfn')].
    + destruct (decide (name1 = name)) as [->|Hne].
      * rewrite lookup_insert_eq in Hm1. injection Hm1 as <-.
        right. split; [done|]. exists function1. split; [left|done].
      * rewrite lookup_insert_ne in Hm1 by done. by left.
    + right. split; [done|]. exists function. split; [by right|done].
Qed.

(** Entries with another name leave the binding of [name] alone. *)
Lemma table_other_entries objs : forall m m' name,
  Py.for_each Cipher.add_transform m objs = Ok m' ->
  (forall function, name +:+ ":" +:+ function ∉ objs) ->
  Props.free_of ":" name ->
  m' !! name = m !! name.
Proof.
  induction objs as [|obj objs IH]; intros m m' name; cbn [Py.for_each].
  - by intros [= <-].
  - destruct (Cipher.add_transform m obj) as [m1|] eqn:Hadd; [|done]. bind_step.
    intros Hrest Hother Hfree.
    apply add_transform_ok in Hadd as (name1 & function1 & fn1 & -> & Hfree1 & Hfn & ->).
    rewrite (IH _ _ name Hrest); [|intros f Hin; apply (Hother f); by right|done].
    apply lookup_insert_ne. intros ->. apply (Hother function1). left.
Qed.

(** The loop never removes a key. *)
Lemma table_keys_stay objs : forall m m' name,
  Py.for_each Cipher.add_transform m objs = Ok m' ->
  is_Some (m !! name) -> is_Some (m' !! name).
Proof.
  induction objs as [|obj objs IH]; intros m m' name; cbn [Py.for_each].
  - by intros [= <-].
  - destruct (Cipher.add_transform m obj) as [m1|] eqn:Hadd; [|done]. bind_step.
    intros Hrest Hsome. apply (IH _ _ name Hrest).
    apply add_transform_ok in Hadd as (name1 & function1 & fn1 & -> & _ & _ & ->).
    destruct (decide (name1 = name)) as [->|Hne].
    + rewrite lookup_insert_eq. eauto.
    + by rewrite lookup_insert_ne.
Qed.

End TableFacts.

(** X15: every binding of the table that [get_transform_map] returns comes
    from an entry [name:function] of the container: the key holds no colon,
    and the value is what [map_functions] returns on the text after the first
    colon of that entry. *)
Theorem transform_map_bindings (js var name : string) (fn : Cipher.transform)
    (tmap : gmap string Cipher.transform) :
  Cipher.get_transform_map js var = Ok tmap ->
  tmap !! name = Some fn ->
  Props.free_of ":" name
  /\ exists objs function,
       Cipher.get_transform_object js var = Ok objs
       /\ name +:+ ":" +:+ function ∈ objs
       /\ Cipher.map_functions function = Ok fn.
Proof.
  unfold Cipher.get_transform_map.
  destruct (Cipher.get_transform_object js var) as [objs|]; [|done]. bind_step.
  intros Hloop Hlook.
  destruct (table_bindings_from_entries objs ∅ tmap name fn Hloop Hlook)
    as [Hempty|(Hfree & function & Hin & Hfn)]; [by rewrite lookup_empty in Hempty|].
  split; [done|]. by exists objs, function.
Qed.

Lemma transform_map_bindings_witness :
  Cipher.get_transform_map sample_js_swap "DE" = Ok sample_table_swap
  /\ sample_table_swap !! "kT" = Some Cipher.fn_swap
  /\ Props.free_of ":" "kT"
  /\ exists objs function,
       Cipher.get_transform_object sample_js_swap "DE" = Ok objs
       /\ "kT" +:+ ":" +:+ function ∈ objs
       /\ Cipher.map_functions function = Ok Cipher.fn_swap.
Proof.
  assert (Cipher.get_transform_map sample_js_swap "DE" = Ok sample_table_swap)
    as H1 by (vm_compute; reflexivity).
  assert (sample_table_swap !! "kT" = Some Cipher.fn_swap) as H2
    by (vm_compute; reflexivity).
  exact (conj H1 (conj H2
           (transform_map_bindings sample_js_swap "DE" "kT" _ _ H1 H2))).
Defined.

(** X16: when [get_transform_map] returns a table, every entry of the
    container holds a colon, the text after its first colon has one of the
    three shapes, and the name before it is a key of the table. *)
Theorem transform_map_covers_entries (js var : string) (objs : list string)
    (tmap : gmap string Cipher.transform) :
  Cipher.get_transform_object js var = Ok objs ->
  Cipher.get_transform_map js var = Ok tmap ->
  Forall (fun obj =>
            exists name function fn,
              obj = name +:+ ":" +:+ function /\ Props.free_of ":" name
              /\ Cipher.map_functions function = Ok fn
              /\ is_Some (tmap !! name)) objs.
Proof.
  unfold Cipher.get_transform_map. intros ->. bind_step.
  generalize (∅ : gmap string Cipher.transform). revert tmap.
  induction objs as [|obj objs IH]; intros tmap m; cbn [Py.for_each]; [done|].
  destruct (Cipher.add_transform m obj) as [m1|] eqn:Hadd; [|done]. bind_step.
  intros Hrest. constructor; [|by eapply IH].
  apply add_transform_ok in Hadd as (name & function & fn & -> & Hfree & Hfn & ->).
  exists name, function, fn. repeat split; try done.
  apply (table_keys_stay objs _ tmap name Hrest).
  rewrite lookup_insert_eq. eauto.
Qed.

Lemma transform_map_covers_entries_witness :
  Cipher.get_transform_object sample_js "DE"
  = Ok ["AJ:function(a){a.reverse()}"; "VR:function(a,b){a.splice(0,b)}"]
  /\ Cipher.get_transform_map sample_js "DE"
     = Ok (<["VR" := Cipher.fn_splice]> (<["AJ" := Cipher.fn_reverse]> ∅))
  /\ Forall (fun obj =>
               exists name function fn,
                 obj = name +:+ ":" +:+ function /\ Props.free_of ":" name
                 /\ Cipher.map_functions function = Ok fn
                 /\ is_Some ((<["VR" := Cipher.fn_splice]>
                                (<["AJ" := Cipher.fn_reverse]> ∅)
                              : gmap string Cipher.transform) !! name))
       ["AJ:function(a){a.reverse()}"; "VR:function(a,b){a.splice(0,b)}"].
Proof.
  assert (Cipher.get_transform_object sample_js "DE"
          = Ok ["AJ:function(a){a.reverse()}"; "VR:function(a,b){a.splice(0,b)}"])
    as H1 by (vm_compute; reflexivity).
  assert (Cipher.get_transform_map sample_js "DE"
          = Ok (<["VR" := Cipher.fn_splice]> (<["AJ" := Cipher.fn_reverse]> ∅)))
    as H2 by (vm_compute; reflexivity).
  exact (conj H1 (conj H2 (transform_map_covers_entries sample_js "DE" _ _ H1 H2))).
Defined.

(** X17: when the container binds a name more than once, the last entry
    decides: the table maps the name to what [map_functions] returns on the
    function text of the last entry with that name. *)
Theorem transform_map_last_entry_wins (js var name function : string)
    (front back : list string) (tmap : gmap string Cipher.transform) :
  Cipher.get_transform_object js var
  = Ok (front ++ (name +:+ ":" +:+ function) :: back) ->
  Props.free_of ":" name ->
  (forall f, name +:+ ":" +:+ f ∉ back) ->
  Cipher.get_transform_map js var = Ok tmap ->
  exists fn, Cipher.map_functions function = Ok fn /\ tmap !! name = Some fn.
Proof.
  unfold Cipher.get_transform_map. intros -> Hfree Hback. bind_step.
  rewrite for_each_app.
  destruct (Py.for_each Cipher.add_transform ∅ front) as [m1|]; [|done].
  bind_step. cbn [Py.for_each]. rewrite add_transform_cut by done.
  destruct (Cipher.map_functions function) as [fn|]; [|done]. bind_step.
  intros Hrest. exists fn. split; [done|].
  rewrite (table_other_entries back _ tmap name Hrest Hback Hfree).
  apply lookup_insert_eq.
Qed.

Lemma transform_map_last_entry_wins_witness :
  Cipher.get_transform_object sample_js_twice "DE"
  = Ok (["AJ:function(a){a.reverse()}"]
        ++ ("AJ" +:+ ":" +:+ "function(a,b){a.splice(0,b)}") :: [])
  /\ Props.free_of ":" "AJ"
  /\ (forall f, "AJ" +:+ ":" +:+ f ∉ @nil string)
  /\ Cipher.get_transform_map sample_js_twice "DE"
     = Ok (<["AJ" := Cipher.fn_splice]> ∅)
  /\ exists fn,
       Cipher.map_functions "function(a,b){a.splice(0,b)}" = Ok fn
       /\ (<["AJ" := Cipher.fn_splice]> ∅ : gmap string Cipher.transform) !! "AJ"
          = Some fn.
Proof.
  assert (Cipher.get_transform_object sample_js_twice "DE"
          = Ok (["AJ:function(a){a.reverse()}"]
                ++ ("AJ" +:+ ":" +:+ "function(a,b){a.splice(0,b)}") :: []))
    as H1 by (vm_compute; reflexivity).
  assert (Props.free_of ":" "AJ") as H2 by (vm_compute; auto).
  assert (forall f, "AJ" +:+ ":" +:+ f ∉ @nil string) as H3
    by (intros f; apply not_elem_of_nil).
  assert (Cipher.get_transform_map sample_js_twice "DE"
          = Ok (<["AJ" := Cipher.fn_splice]> ∅)) as H4
    by (vm_compute; reflexivity).
  exact (conj H1 (conj H2 (conj H3 (conj H4
           (transform_map_last_entry_wins sample_js_twice "DE" "AJ" _ _ _ _
              H1 H2 H3 H4))))).
Defined.

(** * Further properties of the decoding loop *)

Section CallFacts2.
Context {A : Type}.
Implicit Types (arr sig : list A) (b : Z) (fn : Cipher.transform).

Lemma getitem_elem arr i x : Py.getitem arr i = Ok x -> x ∈ arr.
Proof.
  unfold Py.getitem. cbv zeta.
  destruct (_ || _); [done|].
  destruct (arr !! _) as [y|] eqn:Hy; [|done].
  intros [= <-]. by eapply list_elem_of_lookup_2.
Qed.

Lemma slice_subseteq arr i j : Py.slice arr i j ⊆ arr.
Proof.
  unfold Py.slice. etrans; [apply subseteq_take|apply subseteq_drop].
Qed.

(** A transform returns only elements of its input. *)
Lemma call_subseteq fn sig b sig' : Cipher.call fn sig b = Ok sig' -> sig' ⊆ sig.
Proof.
  destruct fn; cbn [Cipher.call].
  - intros [= <-]. rewrite reverse_is_reverse. intros x. by rewrite elem_of_reverse.
  - intros [= <-]. unfold Cipher.splice, Py.slice_to, Py.slice_from.
    intros x [Hx|Hx]%elem_of_app;
      [by eapply subseteq_take|by eapply subseteq_drop].
  - unfold Cipher.swap.
    destruct (Py.mod_ b _) as [r|]; [|done]. bind_step.
    destruct (Py.getitem sig r) as [ar|] eqn:Har; [|done]. bind_step.
    destruct (Py.getitem sig 0) as [a0|] eqn:Ha0; [|done]. bind_step.
    intros [= <-]. apply getitem_elem in Har, Ha0.
    intros x Hx. cbn [app] in Hx.
    apply elem_of_cons in Hx as [->|Hx]; [done|].
    apply elem_of_app in Hx as [Hx|Hx]; [by eapply slice_subseteq|].
    apply elem_of_cons in Hx as [->|Hx]; [done|].
    by eapply subseteq_drop.
Qed.

(** On a non-empty input and a non-negative integer a transform returns a
    non-empty list. *)
Lemma call_nonempty fn sig b :
  sig <> [] -> 0 <= b ->
  exists sig', Cipher.call fn sig b = Ok sig' /\ sig' <> [].
Proof.
  intros Hsig Hb. destruct sig as [|x l]; [done|].
  destruct fn; cbn [Cipher.call].
  - eexists. split; [done|]. rewrite reverse_is_reverse.
    intros Hnil%(f_equal length). by rewrite length_reverse in Hnil.
  - eexists. split; [done|]. rewrite splice_nonneg by done.
    destruct (Z.to_nat b) as [|n]; [by rewrite drop_0|done].
  - destruct (swap_offset x l b) as ([|k] & Hr & Hlt); simpl length in *.
    + rewrite (swap_zero x l b) by lia. eauto.
    + destruct (lookup_lt_is_Some_2 l k) as [y Hy]; [lia|].
      rewrite (swap_nonzero x y l b k) by done. eauto.
Qed.

End CallFacts2.

Lemma parse_function_error c e :
  Cipher.parse_function c = Err e -> e = MalformedCall c.
Proof.
  unfold Cipher.parse_function, Helpers.regex_search_groups.
  destruct (Re.search Cipher.call_pattern c); [done|]. by intros [= <-].
Qed.

Section LoopFacts.
Context (tmap : gmap string Cipher.transform).
Implicit Types (sig : list ascii) (c : string) (tplan : list string).

(** A turn of the loop: either the entry does not parse, or its name is not
    in the table, or [int] refuses its argument, or the transform bound to
    the name is applied to the argument read as a non-negative integer. *)
Lemma apply_step_cases sig c :
  Cipher.apply_step tmap sig c = Err (MalformedCall c)
  \/ (exists name, Cipher.apply_step tmap sig c = Err (UnknownOperationName name))
  \/ Cipher.apply_step tmap sig c = Err ValueError
  \/ (exists fn b, 0 <= b /\ Cipher.apply_step tmap sig c = Cipher.call fn sig b).
Proof.
  unfold Cipher.apply_step.
  destruct (Cipher.parse_function c) as [l|e] eqn:Hparse.
  - destruct (parse_function_shape c l Hparse)
      as (x & u & y & v & -> & _ & _ & Hy & Hv).
    bind_step. destruct (tmap !! String x u) as [fn|]; [|by eauto].
    destruct (Py.int (String y v)) as [n|e] eqn:Hn; bind_step.
    + do 3 right. exists fn, n. split; [by eapply int_nonneg|done].
    + apply int_error in Hn as ->. by do 2 right; left.
  - apply parse_function_error in Hparse as ->. by left.
Qed.

Lemma for_each_subseteq tplan : forall sig sig',
  Py.for_each (Cipher.apply_step tmap) sig tplan = Ok sig' -> sig' ⊆ sig.
Proof.
  induction tplan as [|c tplan IH]; intros sig sig'; cbn [Py.for_each].
  - by intros [= <-].
  - destruct (Cipher.apply_step tmap sig c) as [sig1|] eqn:Hstep; [|done].
    bind_step. intros Hrest%IH. etrans; [done|].
    destruct (apply_step_cases sig c) as [H|[[name H]|[H|(fn & b & _ & H)]]];
      rewrite H in Hstep; try done.
    by eapply call_subseteq.
Qed.

Lemma for_each_nonempty tplan : forall sig,
  sig <> [] ->
  (exists sig', Py.for_each (Cipher.apply_step tmap) sig tplan = Ok sig'
                /\ sig' <> [])
  \/ (exists e, Py.for_each (Cipher.apply_step tmap) sig tplan = Err e
                /\ (Props.call_error e \/ e = ValueError)).
Proof.
  induction tplan as [|c tplan IH]; intros sig Hsig; cbn [Py.for_each].
  - left. eauto.
  - destruct (apply_step_cases sig c)
      as [->|[[name ->]|[->|(fn & b & Hb & ->)]]].
    + right. eexists. split; [done|]. left. left. eauto.
    + right. eexists. split; [done|]. left. right. eauto.
    + right. eexists. split; [done|]. by right.
    + destruct (call_nonempty fn sig b Hsig Hb) as (sig1 & -> & Hsig1).
      bind_step. by apply IH.
Qed.

Lemma for_each_errors tplan : forall sig e,
  Py.for_each (Cipher.apply_step tmap) sig tplan = Err e ->
  Props.call_error e \/ e = ValueError \/ e = ZeroDivisionError.
Proof.
  induction tplan as [|c tplan IH]; intros sig e; cbn [Py.for_each]; [done|].
  destruct (apply_step_cases sig c)
    as [->|[[name ->]|[->|(fn & b & Hb & ->)]]]; bind_step.
  - intros [= <-]. left. left. eauto.
  - intros [= <-]. left. right. eauto.
  - intros [= <-]. by right; left.
  - destruct (Cipher.call fn sig b) as [sig1|e1] eqn:Hcall; bind_step;
      [apply IH|].
    intros [= <-]. destruct fn; cbn [Cipher.call] in Hcall; try done.
    apply swap_error_only_on_empty in Hcall as [_ ->]. by do 2 right.
Qed.

End LoopFacts.

Lemma table_errors objs : forall m e,
  Py.for_each Cipher.add_transform m objs = Err e ->
  e = ValueError \/ exists text, e = UnknownOperationShape text.
Proof.
  induction objs as [|obj objs IH]; intros m e; cbn [Py.for_each]; [done|].
  destruct (Cipher.add_transform m obj) as [m1|e1] eqn:Hadd; bind_step;
    [apply IH|].
  intros [= <-]. unfold Cipher.add_transform in Hadd.
  destruct (split_once ":" obj) as [[_ Hs]|(name & function & _ & _ & Hs)];
    rewrite Hs in Hadd; [left; congruence|].
  unfold Cipher.map_functions in Hadd.
  destruct (Cipher.first_match _ _); [done|].
  right. eexists. by injection Hadd as <-.
Qed.

(** The steps before the loop raise only pattern failures, the failed
    unpacking of a split, and unknown shapes. *)
Lemma plan_and_table_errors js e :
  Spec.plan_and_table js = Err e -> Props.preparation_error e.
Proof.
  unfold Spec.plan_and_table, Cipher.get_transform_plan,
    Cipher.get_initial_function_name.
  destruct (regex_search_group_cases (PatternNotFound "entry_point")
              Cipher.initial_function_pattern js
              parens_initial_function_pattern) as [->|[name ->]]; bind_step;
    [intros [= <-]; left; eauto|].
  destruct (regex_search_group_cases (PatternNotFound "transform_plan")
              (Cipher.transform_plan_pattern name) js
              (parens_transform_plan_pattern name)) as [->|[text ->]]; bind_step;
    [intros [= <-]; left; eauto|].
  destruct (Py.split ";" None text) as [|first rest] eqn:Hsplit;
    [by destruct (split_nonempty ";" None text)|].
  rewrite getitem_head. bind_step.
  destruct (Py.split "." None first) as [|var [|? [|? ?]]]; bind_step;
    try (intros [= <-]; right; by left).
  unfold Cipher.get_transform_map, Cipher.get_transform_object.
  destruct (regex_search_group_cases (PatternNotFound "transform_object")
              (Cipher.transform_object_pattern var) js
              (parens_transform_object_pattern var)) as [->|[body ->]]; bind_step;
    [intros [= <-]; left; eauto|].
  destruct (Py.for_each Cipher.add_transform ∅ _) as [tmap|e'] eqn:Hloop;
    bind_step; [done|].
  intros [= <-]. right. by eapply table_errors.
Qed.

(** X18: [get_signature] only rearranges, drops or repeats characters of the
    ciphered signature: every character of what it returns occurs in its
    input. *)
Theorem get_signature_uses_input_characters (js ciphered out : string) (ch : ascii) :
  Cipher.get_signature js ciphered = Ok out ->
  ch ∈ Py.chars out ->
  ch ∈ Py.chars ciphered.
Proof.
  rewrite get_signature_unfold.
  destruct (Spec.plan_and_table js) as [[tplan tmap]|]; [|done]. bind_step.
  destruct (Py.for_each _ _ _) as [sig|] eqn:Hloop; [|done]. bind_step.
  intros [= <-]. unfold Py.chars at 1, Py.join.
  rewrite String.list_ascii_of_string_of_list_ascii.
  by apply (for_each_subseteq _ _ _ _ Hloop).
Qed.

Lemma get_signature_uses_input_characters_witness :
  Cipher.get_signature sample_js "abcdef" = Ok "feba"
  /\ "f"%char ∈ Py.chars "feba"
  /\ "f"%char ∈ Py.chars "abcdef".
Proof.
  assert (Cipher.get_signature sample_js "abcdef" = Ok "feba") as H1
    by (vm_compute; reflexivity).
  assert ("f"%char ∈ Py.chars "feba") as H2 by (vm_compute; left).
  exact (conj H1 (conj H2
           (get_signature_uses_input_characters sample_js _ _ _ H1 H2))).
Defined.

(** X19: once plan and table are extracted, a non-empty ciphered signature
    never makes the loop of [get_signature] divide by zero: the signature
    stays non-empty through every transform, so the result is a non-empty
    text, unless a plan entry does not parse, names a function that the table
    lacks, or carries an argument that [int] refuses ([ValueError]). *)
Theorem get_signature_nonempty (js ciphered : string) (tplan : list string)
    (tmap : gmap string Cipher.transform) :
  Spec.plan_and_table js = Ok (tplan, tmap) ->
  ciphered <> "" ->
  (exists out, Cipher.get_signature js ciphered = Ok out /\ out <> "")
  \/ (exists e, Cipher.get_signature js ciphered = Err e
                /\ (Props.call_error e \/ e = ValueError)).
Proof.
  intros Hpt Hne. rewrite get_signature_unfold, Hpt. bind_step. cbn [fst snd].
  assert (Py.chars ciphered <> []) as Hsig by by destruct ciphered.
  destruct (for_each_nonempty tmap tplan _ Hsig)
    as [(sig & -> & Hsig')|(e & -> & He)]; bind_step.
  - left. eexists. split; [done|]. by destruct sig.
  - right. eauto.
Qed.

Lemma get_signature_nonempty_witness :
  Spec.plan_and_table sample_js_swap = Ok (sample_plan_swap, sample_table_swap)
  /\ "abcdef" <> ""
  /\ ((exists out, Cipher.get_signature sample_js_swap "abcdef" = Ok out /\ out <> "")
      \/ (exists e, Cipher.get_signature sample_js_swap "abcdef" = Err e
                    /\ (Props.call_error e \/ e = ValueError))).
Proof.
  assert (Spec.plan_and_table sample_js_swap
          = Ok (sample_plan_swap, sample_table_swap)) as H1
    by (vm_compute; reflexivity).
  assert ("abcdef" <> "") as H2 by discriminate.
  exact (conj H1 (conj H2 (get_signature_nonempty sample_js_swap _ _ _ H1 H2))).
Defined.

(** X20: the errors of [get_signature]: a pattern that is not found;
    [ValueError], from a split that does not unpack into two or from [int] on
    a plan argument that it refuses; a function of unknown shape; a plan
    entry that does not parse; a plan entry that names a function that the
    table lacks; or [ZeroDivisionError], the last only on an empty ciphered
    signature.  In particular it never raises [IndexError]. *)
Theorem get_signature_errors (js ciphered : string) (e : error) :
  Cipher.get_signature js ciphered = Err e ->
  (exists stage, e = PatternNotFound stage)
  \/ e = ValueError
  \/ (exists text, e = UnknownOperationShape text)
  \/ (exists text, e = MalformedCall text)
  \/ (exists name, e = UnknownOperationName name)
  \/ (e = ZeroDivisionError /\ ciphered = "").
Proof.
  rewrite get_signature_unfold.
  destruct (Spec.plan_and_table js) as [[tplan tmap]|e'] eqn:Hpt; bind_step.
  - cbn [fst snd].
    destruct (Py.for_each _ _ _) as [sig|e'] eqn:Hloop; bind_step; [done|].
    intros [= <-].
    destruct (for_each_errors _ _ _ _ Hloop) as [[He|He]|[->| ->]];
      [by do 3 right; left|by do 4 right; left|by right; left|].
    do 5 right. split; [done|].
    destruct ciphered as [|ch rest]; [done|].
    assert (Py.chars (String ch rest) <> []) as Hsig by done.
    destruct (for_each_nonempty tmap tplan _ Hsig)
      as [(sig & Hok & _)|(e1 & Herr & [[[? ->]|[? ->]]| ->])];
      congruence.
  - intros [= <-].
    destruct (plan_and_table_errors js _ Hpt) as [H|[H|H]];
      [by left|by right; left|by do 2 right; left].
Qed.

Lemma get_signature_errors_witness :
  Cipher.get_signature "var a=1;" "abc" = Err (PatternNotFound "entry_point")
  /\ ((exists stage, PatternNotFound "entry_point" = PatternNotFound stage)
      \/ PatternNotFound "entry_point" = ValueError
      \/ (exists text, PatternNotFound "entry_point" = UnknownOperationShape text)
      \/ (exists text, PatternNotFound "entry_point" = MalformedCall text)
      \/ (exists name, PatternNotFound "entry_point" = UnknownOperationName name)
      \/ (PatternNotFound "entry_point" = ZeroDivisionError /\ "abc" = "")).
Proof.
  assert (Cipher.get_signature "var a=1;" "abc" = Err (PatternNotFound "entry_point"))
    as H by (vm_compute; reflexivity).
  exact (conj H (get_signature_errors "var a=1;" "abc" _ H)).
Defined.

(** * Writing a call and parsing it back *)

Ltac str_norm :=
  repeat (rewrite str_app_assoc || rewrite str_app_cons || rewrite str_app_nil_l).
Ltac str_norm_in H :=
  repeat (rewrite str_app_assoc in H || rewrite str_app_cons in H
          || rewrite str_app_nil_l in H).

Section RoundTrip.
Implicit Types (s u : string) (x c : ascii) (P Q : Re.cclass).

Lemma search_at_start r s e marks :
  Re.run r [] s = Some (e, marks) ->
  Re.search r s = Some (Re.MatchObj s e (Re.pair_up (rev marks))).
Proof. intros Hrun. destruct s; simpl; by rewrite Hrun. Qed.

Lemma all_in_weaken P Q s :
  (forall x, P x = true -> Q x = true) -> Re.all_in P s -> Re.all_in Q s.
Proof.
  intros HPQ. induction s as [|x s IH]; [done|].
  intros [Hx Hs]. split; [by apply HPQ|by apply IH].
Qed.

Lemma class_excludes P c x :
  P c = false -> P x = true -> negb (Ascii.eqb c x) = true.
Proof.
  intros Hc Hx. apply negb_true_iff, Ascii.eqb_neq. intros ->. congruence.
Qed.

Lemma class_free P c s : P c = false -> Re.all_in P s -> Props.free_of c s.
Proof. intros Hc. apply all_in_weaken. intros x. by apply class_excludes. Qed.

End RoundTrip.

(** X21: writing a call and parsing it back: on the text
    [container.name(x,digits)], with a container and a name of word
    characters, a word character [x] and a run of digits,
    [parse_function] returns the name and the digits. *)
Theorem parse_function_round_trip (container name digits : string) (x : ascii) :
  container <> "" -> Re.all_in Re.word container ->
  name <> "" -> Re.all_in Re.word name ->
  Re.word x = true ->
  digits <> "" -> Re.all_in Re.digit digits ->
  Cipher.parse_function
    (container +:+ "." +:+ name +:+ "(" +:+ String x "," +:+ digits +:+ ")")
  = Ok [name; digits].
Proof.
  intros Hc Hcw Hn Hnw Hx Hd Hdw.
  destruct container as [|c1 u1]; [done|]. destruct name as [|n1 u3]; [done|].
  destruct digits as [|d1 u7]; [done|].
  destruct Hcw as [Hc1 Hu1]. destruct Hnw as [Hn1 Hu3]. destruct Hdw as [Hd1 Hu7].
  set (text := String c1 u1 +:+ "." +:+ String n1 u3 +:+ "(" +:+ String x ","
               +:+ String d1 u7 +:+ ")").
  assert (Re.Lang Cipher.call_pattern text) as HL.
  { unfold Cipher.call_pattern, text. cbn [app Re.lit Re.Lang]. str_norm.
    exists c1, u1, (String "." (String n1 (u3 +:+ String "(" (String x (String ","
              (String d1 (u7 +:+ ")"))))))).
    do 3 (split; [done|]).
    do 2 eexists. do 2 (split; [done|]).
    exists n1, u3, (String "(" (String x (String "," (String d1 (u7 +:+ ")"))))).
    do 3 (split; [done|]).
    do 2 eexists. do 2 (split; [done|]).
    do 2 eexists. do 2 (split; [done|]).
    do 2 eexists. do 2 (split; [done|]).
    exists d1, u7, ")". do 3 (split; [done|]).
    do 2 eexists. by do 2 (split; [done|]). }
  destruct (run_complete _ text "" [] HL) as [[e marks] Hrun].
  rewrite str_app_nil_r in Hrun.
  unfold Cipher.parse_function, Helpers.regex_search_groups.
  rewrite (search_at_start _ _ _ _ Hrun).
  apply run_sound in Hrun as (w & Heq & Hw).
  unfold Cipher.call_pattern in Hw. cbn [app Re.lit Re.Parse] in Hw.
  destruct Hw as (x1 & v1 & w1 & -> & _ & Hv1 & x2 & w2 & -> & ->%chr_true
                  & x3 & v3 & w3 & -> & _ & Hv3 & x4 & w4 & -> & ->%chr_true
                  & x5 & w5 & -> & _ & x6 & w6 & -> & ->%chr_true
                  & x7 & v7 & w7 & -> & _ & Hv7 & x8 & w8 & -> & ->%chr_true
                  & -> & ->).
  unfold Re.groups.
  cbn [rev app Re.pair_up fmap list_fmap fst snd Re.spans].
  unfold text in Heq. str_norm_in Heq.
  injection Heq as <- Heq.
  apply first_cut_unique in Heq as [<- Heq];
    [|by apply (class_free Re.word)..].
  injection Heq as <- Heq.
  apply first_cut_unique in Heq as [<- Heq];
    [|by apply (class_free Re.word)..].
  injection Heq as <- <- Heq.
  apply (first_cut_unique ")" u7 "" v7 e) in Heq as [<- <-];
    [|by apply (class_free Re.digit)..].
  do 2 f_equal; [|f_equal].
  - rewrite !str_app_cons, str_app_assoc, <- str_app_cons. apply between_app.
  - rewrite !str_app_cons, str_app_assoc, <- str_app_cons. apply between_app.
Qed.

Lemma parse_function_round_trip_witness :
  "DE" <> "" /\ Re.all_in Re.word "DE"
  /\ "kT" <> "" /\ Re.all_in Re.word "kT"
  /\ Re.word "a"%char = true
  /\ "21" <> "" /\ Re.all_in Re.digit "21"
  /\ Cipher.parse_function ("DE" +:+ "." +:+ "kT" +:+ "(" +:+ String "a"%char ","
                            +:+ "21" +:+ ")")
     = Ok ["kT"; "21"].
Proof.
  assert ("DE" <> "") as H1 by discriminate.
  assert (Re.all_in Re.word "DE") as H2 by (vm_compute; auto).
  assert ("kT" <> "") as H3 by discriminate.
  assert (Re.all_in Re.word "kT") as H4 by (vm_compute; auto).
  assert (Re.word "a"%char = true) as H5 by reflexivity.
  assert ("21" <> "") as H6 by discriminate.
  assert (Re.all_in Re.digit "21") as H7 by (vm_compute; auto).
  exact (conj H1 (conj H2 (conj H3 (conj H4 (conj H5 (conj H6 (conj H7
           (parse_function_round_trip "DE" "kT" "21" "a"%char
              H1 H2 H3 H4 H5 H6 H7)))))))).
Defined.
